(** * LexiVoice: document chunking and FAISS retrieval

    A shallow embedding of [backend/core/document_processor.py] and
    [backend/core/retriever.py], and the properties of the indexing and
    retrieval core that are stated about them.

    Conventions of the embedding.
    - A Python [str] is a list of Unicode code points ([pystr]); [len] is
      the number of code points.
    - A Python [dict] is a finite map ([gmap]) from string keys.
    - A raised exception is a value [Raise e]; a function that mutates
      [self] returns the new [self] next to its outcome, so that the state
      left behind by an exception can be inspected.
    - Vector components, distances and similarity scores are rationals
      ([Q]): the arithmetic of [1 / (1 + distance)] is exact.  The
      accumulator of the polling loop of [search] is a binary64 float, as
      in Python.
    - [top_k] is a natural number; every call in the repository passes 3. *)

From Stdlib Require Import ZArith NArith QArith List String Ascii Lia PrimFloat Sorted.
From stdpp Require Import base gmap strings list.
Close Scope Q_scope.
Open Scope Z_scope.

(** ** Python values *)

Abbreviation pychar := N.
Abbreviation pystr := (list N).

(** A string literal of the source, as code points. *)
Definition py (s : string) : pystr := map N_of_ascii (list_ascii_of_string s).

Definition len {A} (l : list A) : Z := Z.of_nat (length l).

(** Truth value of a string: [if current_chunk:]. *)
Definition truthy (s : pystr) : bool :=
  match s with [] => false | _ :: _ => true end.

Record exn := mk_exn { exn_class : string; exn_arg : pystr }.

Inductive result (A : Type) : Type :=
| Ok (a : A)
| Raise (e : exn).
Arguments Ok {A} a.
Arguments Raise {A} e.

Definition bind {A B} (r : result A) (k : A -> result B) : result B :=
  match r with
  | Ok a => k a
  | Raise e => Raise e
  end.

Notation "x <- r ;; k" := (bind r (fun x => k))
  (at level 100, r at level 99, right associativity).

(** [d[key]] raises [KeyError(key)] when the key is absent. *)
Definition KeyError (key : string) : exn :=
  {| exn_class := "KeyError"; exn_arg := py key |}.

Definition getitem {V} (d : gmap string V) (key : string) : result V :=
  match d !! key with
  | Some v => Ok v
  | None => Raise (KeyError key)
  end.

(** [d.get(key, default)]. *)
Definition dict_get {V} (d : gmap string V) (key : string) (default : V) : V :=
  match d !! key with
  | Some v => v
  | None => default
  end.

(** ** Characters: what [\s], [str.strip] and the two regular expressions see *)

(** Unicode whitespace, as CPython's [Py_UNICODE_ISSPACE]: it is what [\s]
    matches in a [str] pattern and what [str.strip()] removes. *)
Definition is_space (c : pychar) : bool :=
  ((9 <=? c) && (c <=? 13) || (28 <=? c) && (c <=? 32) || (c =? 133) || (c =? 160)
   || (c =? 5760) || (8192 <=? c) && (c <=? 8202) || (c =? 8232) || (c =? 8233)
   || (c =? 8239) || (c =? 8287) || (c =? 12288))%N.

(** The class [[\x20-\x7E]]. *)
Definition is_printable (c : pychar) : bool := ((32 <=? c) && (c <=? 126))%N.

(** The class [[.!?]]. *)
Definition is_sentence_end (c : pychar) : bool :=
  ((c =? 46) || (c =? 33) || (c =? 63))%N.

Definition SPACE : pychar := 32%N.

Fixpoint lstrip (s : pystr) : pystr :=
  match s with
  | [] => []
  | c :: s' => if is_space c then lstrip s' else s
  end.

Definition rstrip (s : pystr) : pystr := rev (lstrip (rev s)).

(** [s.strip()] *)
Definition strip (s : pystr) : pystr := rstrip (lstrip s).

(** [re.sub(r'\s+', ' ', text)]: every maximal run of whitespace becomes one
    space.  [in_run] tells that the previous character was whitespace. *)
Fixpoint sub_whitespace (in_run : bool) (text : pystr) : pystr :=
  match text with
  | [] => []
  | c :: rest =>
      if is_space c
      then (if in_run then sub_whitespace true rest
            else SPACE :: sub_whitespace true rest)
      else c :: sub_whitespace false rest
  end.

(** [re.sub(r'[^\x20-\x7E]', '', text)] *)
Definition sub_non_printable (text : pystr) : pystr := List.filter is_printable text.

Definition head_is_space (s : pystr) : bool :=
  match s with [] => false | c :: _ => is_space c end.

(** [re.split(r'(?<=[.!?])\s+', text)]: a separator is a maximal run of
    whitespace that directly follows one of [. ! ?]; the pieces are the text
    between separators (the last piece is empty when the text ends with a
    separator). *)
Fixpoint re_split_sentences (text : pystr) : list pystr :=
  match text with
  | [] => [[]]
  | c :: rest =>
      match re_split_sentences rest with
      | piece :: pieces =>
          if is_sentence_end c && head_is_space rest
          then [c] :: lstrip piece :: pieces
          else (c :: piece) :: pieces
      | [] => [[c]]
      end
  end.

(** ** document_processor.py *)

Record DocumentChunk := {
  text : pystr;
  title : pystr;
  section : pystr;
  source_url : pystr;
  country : pystr;
  category : pystr;
  chunk_id : nat;
  total_chunks : nat
}.

Record DocumentProcessor := { chunk_size : Z }.

(** A document of the JSON file: a dict whose values are strings. *)
Abbreviation Doc := (gmap string pystr).

Definition clean_text (text : pystr) : pystr :=
  let text := sub_whitespace false text in
  let text := sub_non_printable text in
  strip text.

(** One iteration of [for sentence in sentences] on the pair
    [(chunks, current_chunk)]. *)
Definition pack_sentence (size : Z) (st : list pystr * pystr) (sentence : pystr)
  : list pystr * pystr :=
  let '(chunks, current_chunk) := st in
  if len current_chunk + len sentence + 1 <=? size then
    (chunks,
     current_chunk ++ (if truthy current_chunk then SPACE :: sentence else sentence))
  else
    ((if truthy current_chunk then chunks ++ [strip current_chunk] else chunks),
     sentence).

Definition split_into_chunks (self : DocumentProcessor) (text : pystr) : list pystr :=
  if len text <=? chunk_size self then [text]
  else
    let sentences := re_split_sentences text in
    let '(chunks, current_chunk) :=
      fold_left (pack_sentence (chunk_size self)) sentences ([], []) in
    if truthy current_chunk then chunks ++ [strip current_chunk] else chunks.

(** The constructor call [DocumentChunk(text=..., title=doc['title'], ...)]:
    the keyword arguments are evaluated in the order they are written. *)
Definition make_chunk (doc : Doc) (total : nat) (idx : nat) (txt : pystr)
  : result DocumentChunk :=
  ttl <- getitem doc "title" ;;
  let sec := dict_get doc "section" [] in
  let url := dict_get doc "source_url" [] in
  ctry <- getitem doc "country" ;;
  cat <- getitem doc "category" ;;
  Ok {| text := txt; title := ttl; section := sec; source_url := url;
        country := ctry; category := cat; chunk_id := idx; total_chunks := total |}.

(** [for idx, text in enumerate(text_chunks): ... all_chunks.append(chunk)] *)
Fixpoint append_chunks (doc : Doc) (total : nat) (idx : nat) (texts : list pystr)
  (all_chunks : list DocumentChunk) : result (list DocumentChunk) :=
  match texts with
  | [] => Ok all_chunks
  | txt :: rest =>
      chunk <- make_chunk doc total idx txt ;;
      append_chunks doc total (S idx) rest (all_chunks ++ [chunk])
  end.

(** [for doc in documents: ...] *)
Fixpoint process_loop (self : DocumentProcessor) (documents : list Doc)
  (all_chunks : list DocumentChunk) : result (list DocumentChunk) :=
  match documents with
  | [] => Ok all_chunks
  | doc :: rest =>
      content <- getitem doc "content" ;;
      let clean_content := clean_text content in
      let text_chunks := split_into_chunks self clean_content in
      all_chunks' <- append_chunks doc (length text_chunks) 0 text_chunks all_chunks ;;
      process_loop self rest all_chunks'
  end.

Definition process_documents (self : DocumentProcessor) (documents : list Doc)
  : result (list DocumentChunk) :=
  process_loop self documents [].

(** ** External collaborators of retriever.py *)

(** A numpy row of floats. *)
Definition vector := list Q.

(** A numpy array as far as [build_index] looks at it: its [shape] tuple and
    its rows. *)
Record ndarray := { shape : list nat; rows : list vector }.

(** [faiss.IndexFlatL2]: the dimension and the stored vectors, in insertion
    order. *)
Record IndexFlatL2 := { d : nat; xb : list vector }.

Definition ntotal (ix : IndexFlatL2) : nat := length (xb ix).

(** The distance of [IndexFlatL2] (faiss's [fvec_L2sqr]): the sum of the
    squared differences of the components. *)
Definition fvec_L2sqr (x y : vector) : Q :=
  fold_right Qplus 0%Q (map (fun ab => ((fst ab - snd ab) * (fst ab - snd ab))%Q) (combine x y)).

(** The distance faiss reports in a result slot it could not fill: the
    largest finite float32. *)
Definition FLT_MAX : Q := (340282346638528859811704183484516925440 # 1)%Q.

(** Insertion into a list of hits ordered by ascending distance; among equal
    distances the earlier inserted hit stays first. *)
Fixpoint insert_hit (h : Q * Z) (hs : list (Q * Z)) : list (Q * Z) :=
  match hs with
  | [] => [h]
  | h' :: rest =>
      if Qle_bool (fst h') (fst h) then h' :: insert_hit h rest else h :: hs
  end.

Definition sort_hits (hs : list (Q * Z)) : list (Q * Z) :=
  fold_left (fun acc h => insert_hit h acc) hs [].

(** The candidate hits of a query: every stored vector with its distance
    and its position. *)
Definition all_hits (ix : IndexFlatL2) (query : vector) : list (Q * Z) :=
  imap (fun i x => (fvec_L2sqr query x, Z.of_nat i)) (xb ix).

(** The candidates that can enter a result: a result slot starts with the
    distance [FLT_MAX], and a stored vector takes a slot only when its
    distance is below it. *)
Definition near_hits (ix : IndexFlatL2) (query : vector) : list (Q * Z) :=
  List.filter (fun h => negb (Qle_bool FLT_MAX (fst h))) (all_hits ix query).

(** [assert d == self.d] and [assert k > 0] of faiss's [search]. *)
Definition AssertionError : exn := {| exn_class := "AssertionError"; exn_arg := [] |}.

(** [index.search(query, k)] for one query row, as faiss documents it.  The
    query must have the dimension of the index and [k] must be positive.
    The result has [k] slots [(distance, label)], the nearest stored vectors
    first by ascending distance; when fewer than [k] candidates are there,
    the result is padded: the remaining slots carry the distance [FLT_MAX]
    and the label [-1]. *)
Definition faiss_search (ix : IndexFlatL2) (query : vector) (k : nat)
  : result (list (Q * Z)) :=
  if negb (length query =? d ix)%nat then Raise AssertionError
  else if (k =? 0)%nat then Raise AssertionError
  else
    let hits := sort_hits (near_hits ix query) in
    let found := take k hits in
    Ok (found ++ replicate (k - length found) (FLT_MAX, -1)).

Inductive pyval :=
| PStr (s : pystr)
| PInt (z : Z)
| PFloat (q : Q).

(** The metadata of one chunk: a dict. *)
Abbreviation ChunkDict := (gmap string pyval).

(** What is on disk under [index_path] and [metadata_path]. *)
Record Disk := {
  index_file : option IndexFlatL2;
  metadata_file : option (list ChunkDict)
}.

(** The collaborators that can fail: the JSON file of the country, the
    embedding model and the file system.  The three [_error] fields say
    whether a write fails, and with which exception. *)
Record Env := {
  load_documents : pystr -> result (list Doc);
  encode_texts : list pystr -> result ndarray;
  encode_single : pystr -> result vector;
  makedirs_error : option exn;
  write_index_error : option exn;
  pickle_dump_error : option exn
}.

Definition IndexError (msg : string) : exn :=
  {| exn_class := "IndexError"; exn_arg := py msg |}.

Definition TypeError (msg : string) : exn :=
  {| exn_class := "TypeError"; exn_arg := py msg |}.

(** [l[i]] on a Python list: a negative index counts from the end. *)
Definition list_getitem {A} (l : list A) (i : Z) : result A :=
  let j := if i <? 0 then i + len l else i in
  if (0 <=? j) && (j <? len l) then
    match l !! Z.to_nat j with
    | Some x => Ok x
    | None => Raise (IndexError "list index out of range")
    end
  else Raise (IndexError "list index out of range").

(** [t[1]] on the shape tuple. *)
Definition shape_1 (a : ndarray) : result nat :=
  match shape a !! 1%nat with
  | Some n => Ok n
  | None => Raise (IndexError "tuple index out of range")
  end.

(** ** retriever.py *)

Module Retriever.
Record t := {
  country : pystr;
  index : option IndexFlatL2;
  chunks : list ChunkDict
}.
End Retriever.
Abbreviation FAISSRetriever := Retriever.t.

Definition set_index (self : FAISSRetriever) (ix : option IndexFlatL2) : FAISSRetriever :=
  {| Retriever.country := Retriever.country self;
     Retriever.index := ix;
     Retriever.chunks := Retriever.chunks self |}.

Definition set_chunks (self : FAISSRetriever) (cs : list ChunkDict) : FAISSRetriever :=
  {| Retriever.country := Retriever.country self;
     Retriever.index := Retriever.index self;
     Retriever.chunks := cs |}.

(** [__init__], without the background load it may schedule: that load is
    the [bg] argument of [wait_loop]. *)
Definition init (ctry : pystr) : FAISSRetriever :=
  {| Retriever.country := ctry; Retriever.index := None; Retriever.chunks := [] |}.

(** A method that mutates [self] and the disk and may raise. *)
Definition M (A : Type) : Type := FAISSRetriever * Disk -> (FAISSRetriever * Disk) * result A.

Definition bindM {A B} (m : M A) (k : A -> M B) : M B :=
  fun st =>
    match m st with
    | (st', Ok a) => k a st'
    | (st', Raise e) => (st', Raise e)
    end.

Notation "x <~ m ;; k" := (bindM m (fun x => k))
  (at level 100, m at level 99, right associativity).

(** A call that does not touch the state. *)
Definition call {A} (r : result A) : M A := fun st => (st, r).

Definition get_self : M FAISSRetriever := fun st => (st, Ok (fst st)).

Definition put_self (self : FAISSRetriever) : M unit := fun st => ((self, snd st), Ok tt).

Definition get_disk : M Disk := fun st => (st, Ok (snd st)).

Definition put_disk (disk : Disk) : M unit := fun st => ((fst st, disk), Ok tt).

(** A file-system call that fails with [err] when there is one. *)
Definition io (err : option exn) : M unit :=
  call (match err with Some e => Raise e | None => Ok tt end).

(** The dict literal of [build_index]. *)
Definition chunk_dict (chunk : DocumentChunk) : ChunkDict :=
  <["chunk_id" := PInt (Z.of_nat (chunk_id chunk))]>
  (<["category" := PStr (category chunk)]>
  (<["country" := PStr (country chunk)]>
  (<["source_url" := PStr (source_url chunk)]>
  (<["section" := PStr (section chunk)]>
  (<["title" := PStr (title chunk)]>
  (<["text" := PStr (text chunk)]> ∅)))))).

(** One iteration of [for chunk in chunk_objects]: [self.chunks.append] and
    [texts.append]. *)
Definition append_metadata (st : list ChunkDict * list pystr) (chunk : DocumentChunk)
  : list ChunkDict * list pystr :=
  (fst st ++ [chunk_dict chunk], snd st ++ [text chunk]).

Definition save_index (env : Env) : M unit :=
  _ <~ io (makedirs_error env) ;;
  self <~ get_self ;;
  disk <~ get_disk ;;
  _ <~ io (write_index_error env) ;;
  _ <~ put_disk {| index_file := Retriever.index self; metadata_file := metadata_file disk |} ;;
  _ <~ io (pickle_dump_error env) ;;
  put_disk {| index_file := Retriever.index self;
              metadata_file := Some (Retriever.chunks self) |}.

Definition build_index (env : Env) : M unit :=
  self <~ get_self ;;
  let processor := {| chunk_size := 500 |} in
  documents <~ call (load_documents env (Retriever.country self)) ;;
  chunk_objects <~ call (process_documents processor documents) ;;
  _ <~ put_self (set_chunks self []) ;;
  let '(metadata, texts) := fold_left append_metadata chunk_objects ([], []) in
  self <~ get_self ;;
  _ <~ put_self (set_chunks self metadata) ;;
  embeddings <~ call (encode_texts env texts) ;;
  dimension <~ call (shape_1 embeddings) ;;
  self <~ get_self ;;
  _ <~ put_self (set_index self (Some {| d := dimension; xb := rows embeddings |})) ;;
  save_index env.

(** [load_index]: any exception of the two reads is caught and resets the
    state. *)
Definition load_index (self : FAISSRetriever) (disk : Disk) : FAISSRetriever :=
  match index_file disk with
  | None => set_chunks (set_index self None) []
  | Some ix =>
      let self := set_index self (Some ix) in
      match metadata_file disk with
      | None => set_chunks (set_index self None) []
      | Some cs => set_chunks self cs
      end
  end.

Definition wait_step : float := 0x1.999999999999ap-3%float.  (* 0.2 *)
Definition max_wait : float := 5.0%float.

Definition is_None {A} (o : option A) : bool :=
  match o with None => true | Some _ => false end.

(** What the background loader does during one wait of [search]: nothing,
    or a [load_index] that completes against the given disk content.  A
    load is one step here: the state between its two assignments
    ([self.index], then [self.chunks]) is not among the states the polling
    loop can see. *)
Definition background (bg : option Disk) (self : FAISSRetriever) : FAISSRetriever :=
  match bg with
  | None => self
  | Some disk => load_index self disk
  end.

(** The polling loop of [search].  [bg n] is what the background loader does
    during wait number [n]; the loop returns the retriever it ends with, the
    value of [waited] and the number of waits.  [fuel] bounds the number of
    iterations of the model. *)
Fixpoint wait_loop (fuel : nat) (bg : nat -> option Disk)
  (self : FAISSRetriever) (waited : float) (n : nat)
  : option (FAISSRetriever * float * nat) :=
  if is_None (Retriever.index self) && PrimFloat.ltb waited max_wait then
    match fuel with
    | O => None
    | S fuel' =>
        wait_loop fuel' bg (background (bg n) self) (PrimFloat.add waited wait_step) (S n)
    end
  else Some (self, waited, n).

Definition not_loaded (ctry : pystr) : exn :=
  {| exn_class := "Exception";
     exn_arg := py "Index not loaded for " ++ ctry
                ++ py ". Try again later or trigger build_index()." |}.

(** [for distance, idx in zip(distances[0], indices[0])] *)
Fixpoint collect_results (chunks : list ChunkDict) (hits : list (Q * Z))
  (results : list ChunkDict) : result (list ChunkDict) :=
  match hits with
  | [] => Ok results
  | (distance, idx) :: rest =>
      if idx <? len chunks then
        chunk <- list_getitem chunks idx ;;
        let similarity := (/ (1 + distance))%Q in
        let chunk := <["similarity_score" := PFloat similarity]> chunk in
        collect_results chunks rest (results ++ [chunk])
      else collect_results chunks rest results
  end.

(** The logging loop after the search reads [result['title'][:50]] and
    formats [result['similarity_score']]. *)
Fixpoint log_results (results : list ChunkDict) : result unit :=
  match results with
  | [] => Ok tt
  | r :: rest =>
      ttl <- getitem r "title" ;;
      match ttl with
      | PStr _ => _ <- getitem r "similarity_score" ;; log_results rest
      | _ => Raise (TypeError "object is not subscriptable")
      end
  end.

(** [search] on a retriever whose index is there. *)
Definition search_index (env : Env) (self : FAISSRetriever) (ix : IndexFlatL2)
  (query : pystr) (top_k : nat) : result (list ChunkDict) :=
  query_embedding <- encode_single env query ;;
  hits <- faiss_search ix query_embedding top_k ;;
  results <- collect_results (Retriever.chunks self) hits [] ;;
  _ <- log_results results ;;
  Ok results.

(** [search(query, top_k)]; [None] when the model's fuel did not cover the
    polling loop. *)
Definition search (fuel : nat) (env : Env) (bg : nat -> option Disk)
  (self : FAISSRetriever) (query : pystr) (top_k : nat)
  : option (result (list ChunkDict)) :=
  match wait_loop fuel bg self 0%float 0%nat with
  | None => None
  | Some (self', _, _) =>
      match Retriever.index self' with
      | None => Some (Raise (not_loaded (Retriever.country self')))
      | Some ix => Some (search_index env self' ix query top_k)
      end
  end.

(** ** Definitions used to state the properties *)

(** The keys [process_documents] reads with [doc[...]], in the order it
    reads them. *)
Definition required_fields : list string := ["content"; "title"; "country"; "category"]%string.

Definition has_field (doc : Doc) (key : string) : bool :=
  match doc !! key with Some _ => true | None => false end.

Definition well_formed (doc : Doc) : bool := forallb (has_field doc) required_fields.

(** The first required key that a document lacks. *)
Definition first_missing (doc : Doc) : option string :=
  List.find (fun key => negb (has_field doc key)) required_fields.

(** The chunk that [make_chunk] builds from a well-formed document. *)
Definition chunk_of (doc : Doc) (total idx : nat) (txt : pystr) : DocumentChunk :=
  {| text := txt;
     title := dict_get doc "title" [];
     section := dict_get doc "section" [];
     source_url := dict_get doc "source_url" [];
     country := dict_get doc "country" [];
     category := dict_get doc "category" [];
     chunk_id := idx;
     total_chunks := total |}.

(** [c] carries the provenance of [doc] and the chunk count [total]. *)
Definition from_doc (doc : Doc) (total : nat) (c : DocumentChunk) : Prop :=
  doc !! "title" = Some (title c) /\
  section c = dict_get doc "section" [] /\
  source_url c = dict_get doc "source_url" [] /\
  doc !! "country" = Some (country c) /\
  doc !! "category" = Some (category c) /\
  total_chunks c = total.

(** [g] is the list of chunks of [doc]: the pieces of its cleaned content
    in order, numbered from 0, all with the provenance of [doc]. *)
Definition doc_group (self : DocumentProcessor) (doc : Doc) (g : list DocumentChunk) : Prop :=
  exists content,
    doc !! "content" = Some content /\
    map text g = split_into_chunks self (clean_text content) /\
    map chunk_id g = seq 0 (length g) /\
    List.Forall (from_doc doc (length g)) g.

(** A string that is not empty and does not start with whitespace. *)
Definition solid (s : pystr) : Prop := s <> [] /\ head_is_space s = false.

(** A string without leading or trailing whitespace. *)
Definition trimmed (s : pystr) : Prop :=
  head_is_space s = false /\ head_is_space (rev s) = false.

(** The chunker as section 4.1 of the specification words it: greedy
    packing of the sentences, a chunk being its sentences joined by one
    space.  [current] is the open chunk, empty when there is none. *)
Definition close_chunk (current : pystr) : list pystr :=
  if truthy current then [current] else [].

Definition join_sentence (current sentence : pystr) : pystr :=
  if truthy current then current ++ SPACE :: sentence else sentence.

Fixpoint pack_spec (maxSize : Z) (current : pystr) (sentences : list pystr) : list pystr :=
  match sentences with
  | [] => close_chunk current
  | s :: rest =>
      if len current + len s + 1 <=? maxSize
      then pack_spec maxSize (join_sentence current s) rest
      else close_chunk current ++ pack_spec maxSize s rest
  end.

Definition split_spec (text : pystr) (maxSize : Z) : list pystr :=
  if len text <=? maxSize then [text]
  else pack_spec maxSize [] (re_split_sentences text).

(** The value of [waited] after [n] waits. *)
Definition waited_after (n : nat) : float :=
  Nat.iter n (fun waited => PrimFloat.add waited wait_step) 0%float.

(** The number of waits after which [waited < max_wait] fails. *)
Definition max_polls : nat := 25.

(** The keys of the dict literal of [build_index], and the keys of a search
    result. *)
Definition chunk_keys : gset string :=
  {[ "text"; "title"; "section"; "source_url"; "country"; "category"; "chunk_id" ]}%string.

Definition result_keys : gset string := {[ "similarity_score"%string ]} ∪ chunk_keys.

(** The score of a search result. *)
Definition score (r : ChunkDict) : Q :=
  match r !! "similarity_score" with
  | Some (PFloat q) => q
  | _ => 0%Q
  end.

(** [h1] is at most as far from the query as [h2]. *)
Definition nearer (h1 h2 : Q * Z) : Prop := (fst h1 <= fst h2)%Q.

(** [r1] scores at least as high as [r2]. *)
Definition not_lower (r1 r2 : ChunkDict) : Prop := (score r2 <= score r1)%Q.

(** Hit [h] is the stored vector at position [i], at its distance of the
    query, and result [r] is chunk [i] with the score of that distance. *)
Definition scored (ix : IndexFlatL2) (chunks : list ChunkDict) (query : vector)
  (h : Q * Z) (r : ChunkDict) : Prop :=
  exists i x chunk,
    snd h = Z.of_nat i /\ xb ix !! i = Some x /\ chunks !! i = Some chunk /\
    fst h = fvec_L2sqr query x /\
    r = <["similarity_score" := PFloat (/ (1 + fvec_L2sqr query x))%Q]> chunk.

(** A view [f] of the results of a [search]. *)
Definition on_results {A} (f : list ChunkDict -> A)
  (r : option (result (list ChunkDict))) : option (result A) :=
  match r with
  | Some (Ok results) => Some (Ok (f results))
  | Some (Raise e) => Some (Raise e)
  | None => None
  end.

(** ** Concrete inputs *)

Definition visa_doc : Doc :=
  {[ "content" := py "Students may work.   Hours are limited! Ask the   office?  Yes.";
     "title" := py "Student visa";
     "section" := py "12";
     "country" := py "india";
     "category" := py "immigration" ]}.

(** A document whose content is blank. *)
Definition blank_doc : Doc :=
  {[ "content" := py "   ";
     "title" := py "Blank";
     "country" := py "india";
     "category" := py "civil" ]}.

(** A document without the key [content]. *)
Definition no_content_doc : Doc :=
  {[ "title" := py "Wages";
     "country" := py "india";
     "category" := py "labor" ]}.

(** A document without the key [country]. *)
Definition no_country_doc : Doc :=
  {[ "content" := py "Minimum wage applies.";
     "title" := py "Wages";
     "category" := py "labor" ]}.

(** "a § b": a character outside [\x20-\x7E] between two spaces. *)
Definition section_sign_text : pystr := py "a " ++ [167%N] ++ py " b".

Definition chunk_a : DocumentChunk :=
  {| text := py "Students may work part time."; title := py "Student visa";
     section := py "12"; source_url := []; country := py "india";
     category := py "immigration"; chunk_id := 0; total_chunks := 2 |}.

Definition chunk_b : DocumentChunk :=
  {| text := py "Hours are limited."; title := py "Student visa";
     section := py "12"; source_url := []; country := py "india";
     category := py "immigration"; chunk_id := 1; total_chunks := 2 |}.

(** An index of two unit vectors, (1, 0) and (3/5, 4/5). *)
Definition two_vectors : IndexFlatL2 :=
  {| d := 2; xb := [[1%Q; 0%Q]; [(3 # 5)%Q; (4 # 5)%Q]] |}.

(** A loaded retriever: two vectors, two chunks. *)
Definition two_chunk_retriever : FAISSRetriever :=
  {| Retriever.country := py "india";
     Retriever.index := Some two_vectors;
     Retriever.chunks := [chunk_dict chunk_a; chunk_dict chunk_b] |}.

Definition empty_disk : Disk := {| index_file := None; metadata_file := None |}.

(** Collaborators that all succeed; every text embeds to (1, 0). *)
Definition demo_env : Env :=
  {| load_documents := fun _ => Ok [visa_doc];
     encode_texts := fun texts =>
       Ok {| shape := [length texts; 2%nat]; rows := map (fun _ => [1%Q; 0%Q]) texts |};
     encode_single := fun _ => Ok [1%Q; 0%Q];
     makedirs_error := None;
     write_index_error := None;
     pickle_dump_error := None |}.

Definition model_error : exn :=
  {| exn_class := "RuntimeError"; exn_arg := py "model unavailable" |}.

(** The same, with an embedding model that fails on [encode_texts]. *)
Definition broken_model_env : Env :=
  {| load_documents := fun _ => Ok [visa_doc];
     encode_texts := fun _ => Raise model_error;
     encode_single := fun _ => Ok [1%Q; 0%Q];
     makedirs_error := None;
     write_index_error := None;
     pickle_dump_error := None |}.

(** No background load. *)
Definition idle : nat -> option Disk := fun _ => None.

(** [search("student visa work", top_k=3)] on the retriever with two
    chunks. *)
Definition three_of_two : option (result (list ChunkDict)) :=
  search 0 demo_env idle two_chunk_retriever (py "student visa work") 3.

(** A rebuild of the retriever with two chunks while the embedding model
    fails. *)
Definition broken_build : (FAISSRetriever * Disk) * result unit :=
  build_index broken_model_env (two_chunk_retriever, empty_disk).

(** A first build for india, a second retriever that loads what the build
    saved, and a search on it. *)
Definition demo_build : (FAISSRetriever * Disk) * result unit :=
  build_index demo_env (init (py "india"), empty_disk).

Definition demo_loaded : FAISSRetriever :=
  load_index (init (py "india")) (snd (fst demo_build)).

Definition demo_found : option (result (list ChunkDict)) :=
  search 0 demo_env idle demo_loaded (py "student visa work") 1.

(** A background load of what the build saved, which completes during
    wait number 3. *)
Definition late_load : nat -> option Disk :=
  fun n => if (n =? 3)%nat then Some (snd (fst demo_build)) else None.

Definition twelve : DocumentProcessor := {| chunk_size := 12 |}.

Definition four_sentences : pystr := py "One. Two. A very long sentence. End.".

(** ** More of the code: definitions *)

(** [" ".join(parts)] *)
Fixpoint join_space (parts : list pystr) : pystr :=
  match parts with
  | [] => []
  | [s] => s
  | s :: rest => s ++ SPACE :: join_space rest
  end.

(** Every character is whitespace or in [\x20-\x7E]: the second
    substitution of [clean_text] has nothing to remove but whitespace. *)
Definition plain (s : pystr) : Prop :=
  List.Forall (fun c => is_space c = true \/ is_printable c = true) s.

(** Every whitespace character is a space that does not follow whitespace;
    [prev_space] tells that the previous character was whitespace. *)
Fixpoint tidy (prev_space : bool) (s : pystr) : Prop :=
  match s with
  | [] => True
  | c :: rest =>
      if is_space c then c = SPACE /\ prev_space = false /\ tidy true rest
      else tidy false rest
  end.

(** *** document_processor.py: get_statistics *)

(** The values of the statistics dict: an int, a float, or a dict of
    counts.  The one float, the average length, is kept as the exact
    quotient that Python's [/] rounds to the nearest binary64. *)
Inductive statval :=
| SInt (z : Z)
| SFloat (q : Q)
| SCounts (m : gmap pystr Z).

(** [m[key] = m.get(key, 0) + 1] *)
Definition count_key (m : gmap pystr Z) (key : pystr) : gmap pystr Z :=
  <[key := default 0 (m !! key) + 1]> m.

(** [stats[field][key] = stats[field].get(key, 0) + 1] *)
Definition count_into (field : string) (key : pystr) (stats : gmap string statval)
  : gmap string statval :=
  match stats !! field with
  | Some (SCounts m) => <[field := SCounts (count_key m key)]> stats
  | _ => stats
  end.

(** [min(l)] and [max(l)] on a list that starts with [x]. *)
Definition list_min (x : Z) (l : list Z) : Z := fold_left Z.min l x.
Definition list_max (x : Z) (l : list Z) : Z := fold_left Z.max l x.

(** [sum(l)] *)
Definition list_sum (l : list Z) : Z := fold_left Z.add l 0.

(** [len(set(c.title for c in chunks))] *)
Definition distinct_titles (chunks : list DocumentChunk) : nat :=
  size (list_to_set (map title chunks) : gset pystr).

Definition get_statistics (self : DocumentProcessor) (chunks : list DocumentChunk)
  : gmap string statval :=
  match chunks with
  | [] => ∅
  | first :: others =>
      let chunk_lengths := map (fun c => len (text c)) chunks in
      let stats : gmap string statval :=
        <["chunks_by_category" := SCounts ∅]>
        (<["chunks_by_country" := SCounts ∅]>
        (<["max_chunk_length" :=
             SInt (list_max (len (text first)) (map (fun c => len (text c)) others))]>
        (<["min_chunk_length" :=
             SInt (list_min (len (text first)) (map (fun c => len (text c)) others))]>
        (<["avg_chunk_length" :=
             SFloat (list_sum chunk_lengths # Pos.of_nat (length chunk_lengths))]>
        (<["total_documents" := SInt (Z.of_nat (distinct_titles chunks))]>
        (<["total_chunks" := SInt (len chunks)]> ∅)))))) in
      let stats :=
        fold_left (fun stats chunk => count_into "chunks_by_country" (country chunk) stats)
                  chunks stats in
      let stats :=
        fold_left (fun stats chunk => count_into "chunks_by_category" (category chunk) stats)
                  chunks stats in
      stats
  end.

(** The number of chunks with [key chunk = k]. *)
Definition count_of (key : DocumentChunk -> pystr) (k : pystr) (chunks : list DocumentChunk)
  : Z :=
  len (List.filter (fun c => bool_decide (key c = k)) chunks).

(** The sum of the counts of a dict. *)
Definition counts_total (m : gmap pystr Z) : Z :=
  map_fold (fun _ n total => n + total) 0 m.

(** A chunk fits [maxSize], or is one of the sentences and does not. *)
Definition fits_or_alone (maxSize : Z) (sentences : list pystr) (c : pystr) : Prop :=
  len c <= maxSize \/ (In c sentences /\ maxSize < len c).

(** A text of plain characters with runs of whitespace. *)
Definition spaced_text : pystr := py "  a   b  " ++ [9%N; 10%N] ++ py "c. ".

(** *** Concrete runs of the retriever *)

(** [save_index] on the retriever with two chunks, on an empty disk. *)
Definition demo_save : (FAISSRetriever * Disk) * result unit :=
  save_index demo_env (two_chunk_retriever, empty_disk).

(** A retriever with the index of two vectors and no chunk. *)
Definition index_only : FAISSRetriever :=
  {| Retriever.country := py "india";
     Retriever.index := Some two_vectors;
     Retriever.chunks := [] |}.

(** The search of [three_of_two], on the index directly. *)
Definition three_found : result (list ChunkDict) :=
  search_index demo_env two_chunk_retriever two_vectors (py "student visa work") 3.

(** The outcome of a call as a number: [f] of the value, [0] for an
    exception. *)
Definition measure {A} (f : A -> nat) (r : result A) : nat :=
  match r with Ok a => f a | Raise _ => 0%nat end.

(** *** retriever.py: get_stats *)



(** *** retriever.py: the cache of retrievers *)

(** Where the constructor of a retriever runs: the two files of every
    country, and whether [_executor.submit] accepts a call. *)
Record Host := {
  files : pystr -> Disk;
  executor_up : bool
}.

(** The module-level state behind [get_retriever] and
    [preload_retrievers]: [_retriever_cache], holding every retriever as its
    constructor left it; whether [_embedding_model_instance] is set, with
    the outcomes of the coming attempts to load the model (none left: the
    load succeeds); and the countries whose [load_index] was handed to
    [_executor], in order. *)
Record Registry := {
  retriever_cache : gmap pystr FAISSRetriever;
  model_loaded : bool;
  model_loads : list (option exn);
  submitted : list pystr
}.

(** embeddings.py, [get_embedding_model()]: the model is loaded by the
    first call that finds none, and a failed load leaves none. *)
Definition get_embedding_model (reg : Registry) : Registry * result unit :=
  if model_loaded reg then (reg, Ok tt)
  else
    match model_loads reg with
    | Some e :: later =>
        ({| retriever_cache := retriever_cache reg; model_loaded := false;
            model_loads := later; submitted := submitted reg |}, Raise e)
    | None :: later =>
        ({| retriever_cache := retriever_cache reg; model_loaded := true;
            model_loads := later; submitted := submitted reg |}, Ok tt)
    | [] =>
        ({| retriever_cache := retriever_cache reg; model_loaded := true;
            model_loads := []; submitted := submitted reg |}, Ok tt)
    end.

(** [FAISSRetriever(country)], the whole of [__init__]: the fields of
    [init], and, when both files exist, a [load_index] that is handed to the
    executor, or run at once when the executor refuses it. *)
Definition FAISSRetriever_init (host : Host) (ctry : pystr) (reg : Registry)
  : Registry * result FAISSRetriever :=
  match get_embedding_model reg with
  | (reg, Raise e) => (reg, Raise e)
  | (reg, Ok _) =>
      let self := init ctry in
      let disk := files host ctry in
      if negb (is_None (index_file disk)) && negb (is_None (metadata_file disk)) then
        if executor_up host then
          ({| retriever_cache := retriever_cache reg; model_loaded := model_loaded reg;
              model_loads := model_loads reg; submitted := submitted reg ++ [ctry] |},
           Ok self)
        else (reg, Ok (load_index self disk))
      else (reg, Ok self)
  end.

(** [_retriever_cache[country] = FAISSRetriever(country)] *)
Definition cache_new (host : Host) (ctry : pystr) (reg : Registry)
  : Registry * result FAISSRetriever :=
  match FAISSRetriever_init host ctry reg with
  | (reg, Raise e) => (reg, Raise e)
  | (reg, Ok self) =>
      ({| retriever_cache := <[ctry := self]> (retriever_cache reg);
          model_loaded := model_loaded reg; model_loads := model_loads reg;
          submitted := submitted reg |}, Ok self)
  end.

Definition get_retriever (host : Host) (ctry : pystr) (reg : Registry)
  : Registry * result FAISSRetriever :=
  match retriever_cache reg !! ctry with
  | Some self => (reg, Ok self)
  | None => cache_new host ctry reg
  end.

(** [for country in countries: if country not in _retriever_cache: ...] *)
Fixpoint preload_loop (host : Host) (countries : list pystr) (reg : Registry)
  : Registry * result unit :=
  match countries with
  | [] => (reg, Ok tt)
  | ctry :: rest =>
      match retriever_cache reg !! ctry with
      | Some _ => preload_loop host rest reg
      | None =>
          match cache_new host ctry reg with
          | (reg, Raise e) => (reg, Raise e)
          | (reg, Ok _) => preload_loop host rest reg
          end
      end
  end.

Definition preload_retrievers (host : Host) (countries : option (list pystr))
  (reg : Registry) : Registry * result (gmap pystr FAISSRetriever) :=
  let countries :=
    match countries with
    | None => [py "india"; py "canada"; py "usa"]
    | Some countries => countries
    end in
  match preload_loop host countries reg with
  | (reg, Raise e) => (reg, Raise e)
  | (reg, Ok _) => (reg, Ok (retriever_cache reg))
  end.

(** Both files of a country are there. *)
Definition has_files (host : Host) (ctry : pystr) : bool :=
  negb (is_None (index_file (files host ctry)))
  && negb (is_None (metadata_file (files host ctry))).

(** A host where only india has been built, and a process that has just
    started. *)
Definition demo_host : Host :=
  {| files := fun ctry =>
       if bool_decide (ctry = py "india")
       then {| index_file := Some two_vectors;
               metadata_file := Some [chunk_dict chunk_a; chunk_dict chunk_b] |}
       else empty_disk;
     executor_up := true |}.

Definition fresh_registry : Registry :=
  {| retriever_cache := ∅; model_loaded := false; model_loads := []; submitted := [] |}.

Definition demo_get : Registry * result FAISSRetriever :=
  get_retriever demo_host (py "india") fresh_registry.

Definition demo_preload : Registry * result (gmap pystr FAISSRetriever) :=
  preload_retrievers demo_host None (fst demo_get).

(** *** routers/chat.py: _format_sources *)

Module Source.
Record t := {
  title : pystr;
  section : option pystr;
  url : option pystr;
  relevance_score : option Q
}.
End Source.
Abbreviation SourceDocument := Source.t.

(** What pydantic raises when a field does not validate; the report of the
    exception is not modelled, its argument here is the name of the
    model. *)
Definition ValidationError (model : string) : exn :=
  {| exn_class := "ValidationError"; exn_arg := py model |}.

(** [a == b] on the values of a chunk dict. *)
Definition py_eq (a b : pyval) : bool :=
  match a, b with
  | PStr s, PStr t => bool_decide (s = t)
  | PInt x, PInt y => x =? y
  | PFloat p, PFloat q => Qeq_bool p q
  | PInt x, PFloat q => Qeq_bool (inject_Z x) q
  | PFloat q, PInt x => Qeq_bool q (inject_Z x)
  | _, _ => false
  end.

(** The validation of the four fields of [SourceDocument]: [title: str]
    takes a string only; an [Optional[str]] field takes [None] (here: the
    key is absent) or a string; [Optional[float]] takes [None], a float, or
    what [to_float], pydantic's conversion of another value to a float,
    accepts. *)
Definition SourceDocument_new (to_float : pyval -> option Q)
  (ttl : pyval) (sec link relevance : option pyval) : result SourceDocument :=
  match ttl, sec, link with
  | PStr ttl, (None | Some (PStr _)), (None | Some (PStr _)) =>
      let str v := match v with Some (PStr s) => Some s | _ => None end in
      match relevance with
      | None =>
          Ok {| Source.title := ttl; Source.section := str sec; Source.url := str link;
                Source.relevance_score := None |}
      | Some (PFloat q) =>
          Ok {| Source.title := ttl; Source.section := str sec; Source.url := str link;
                Source.relevance_score := Some q |}
      | Some v =>
          match to_float v with
          | Some q =>
              Ok {| Source.title := ttl; Source.section := str sec; Source.url := str link;
                    Source.relevance_score := Some q |}
          | None => Raise (ValidationError "SourceDocument")
          end
      end
  | _, _, _ => Raise (ValidationError "SourceDocument")
  end.

(** [for chunk in retrieved_chunks[:3]: ...], on [sources] and [seen]. *)
Fixpoint format_loop (to_float : pyval -> option Q) (chunks : list ChunkDict)
  (sources : list SourceDocument) (seen : list pyval) : result (list SourceDocument) :=
  match chunks with
  | [] => Ok sources
  | chunk :: rest =>
      let ttl := dict_get chunk "title" (PStr (py "Unknown")) in
      if existsb (py_eq ttl) seen then format_loop to_float rest sources seen
      else
        source <- SourceDocument_new to_float ttl (chunk !! "section")
                    (chunk !! "source_url") (chunk !! "similarity_score") ;;
        format_loop to_float rest (sources ++ [source]) (ttl :: seen)
  end.

Definition _format_sources {A} (to_float : pyval -> option Q)
  (retrieved_chunks : list ChunkDict) (llm_sources : list A)
  : result (list SourceDocument) :=
  format_loop to_float (take 3 retrieved_chunks) [] [].

(** A conversion that rejects everything but an int. *)
Definition int_to_float (v : pyval) : option Q :=
  match v with PInt z => Some (inject_Z z) | _ => None end.

(** The sources of the search of [three_found]. *)
Definition demo_sources : result (list SourceDocument) :=
  match three_found with
  | Ok results => _format_sources int_to_float results (@nil pystr)
  | Raise e => Raise e
  end.

(** [source] is the [SourceDocument] that [_format_sources] builds from
    [chunk]. *)
Definition source_of (to_float : pyval -> option Q) (chunk : ChunkDict)
  (source : SourceDocument) : Prop :=
  SourceDocument_new to_float (dict_get chunk "title" (PStr (py "Unknown")))
    (chunk !! "section") (chunk !! "source_url") (chunk !! "similarity_score")
  = Ok source.

(** The source of a stored chunk that was found with the score [q]. *)
Definition source_of_chunk (c : DocumentChunk) (q : Q) : SourceDocument :=
  {| Source.title := title c; Source.section := Some (section c);
     Source.url := Some (source_url c); Source.relevance_score := Some q |}.

(** *** The regular expressions on small inputs *)

Example sub_whitespace_ex :
  sub_whitespace false (py "Hello    world  " ++ [10%N] ++ py "  test") = py "Hello world test".
Proof. reflexivity. Qed.

Example re_split_ex1 :
  re_split_sentences (py "First one. Second one!  Third? No.7 x") =
  [py "First one."; py "Second one!"; py "Third?"; py "No.7 x"].
Proof. reflexivity. Qed.

Example re_split_ex2 : re_split_sentences (py "a.  ") = [py "a."; []].
Proof. reflexivity. Qed.

Example re_split_ex3 : re_split_sentences (py " . a") = [py " ."; py "a"].
Proof. reflexivity. Qed.

Example split_ex :
  split_into_chunks {| chunk_size := 20 |} (py "First one. Second one. Third one.") =
  [py "First one."; py "Second one."; py "Third one."].
Proof. reflexivity. Qed.

(** ** Whitespace and stripping *)

Lemma lstrip_head (s : pystr) : head_is_space (lstrip s) = false.
Proof.
  induction s as [|c s IH]; simpl; [reflexivity|].
  destruct (is_space c) eqn:Hc; [exact IH|]. simpl. exact Hc.
Qed.

Lemma lstrip_suffix (s : pystr) : exists p, s = p ++ lstrip s.
Proof.
  induction s as [|c s [p IH]]; simpl.
  - exists []. reflexivity.
  - destruct (is_space c).
    + exists (c :: p). simpl. congruence.
    + exists []. reflexivity.
Qed.

Lemma lstrip_solid (s : pystr) : head_is_space s = false -> lstrip s = s.
Proof. destruct s as [|c s]; simpl; [reflexivity|]. intros ->. reflexivity. Qed.

Lemma lstrip_nil (s : pystr) : lstrip s = [] -> List.Forall (fun c => is_space c = true) s.
Proof.
  induction s as [|c s IH]; simpl; intros H; [constructor|].
  destruct (is_space c) eqn:Hc; [|discriminate].
  constructor; auto.
Qed.

Lemma rstrip_prefix (s : pystr) : exists p, s = rstrip s ++ p.
Proof.
  unfold rstrip. destruct (lstrip_suffix (rev s)) as [p Hp].
  exists (rev p). rewrite <- rev_app_distr, <- Hp, rev_involutive. reflexivity.
Qed.

Lemma head_is_space_app (s p : pystr) :
  s <> [] -> head_is_space (s ++ p) = head_is_space s.
Proof. destruct s; [congruence|reflexivity]. Qed.

Lemma strip_trimmed (s : pystr) : trimmed (strip s).
Proof.
  unfold trimmed, strip. split.
  - destruct (rstrip_prefix (lstrip s)) as [p Hp].
    destruct (rstrip (lstrip s)) as [|c r] eqn:E; [reflexivity|].
    pose proof (lstrip_head s) as Hh. rewrite Hp in Hh. exact Hh.
  - unfold rstrip. rewrite rev_involutive. apply lstrip_head.
Qed.

Lemma strip_solid (s : pystr) : solid s -> strip s <> [].
Proof.
  intros [Hne Hh] Hs. unfold strip in Hs. rewrite (lstrip_solid s Hh) in Hs.
  unfold rstrip in Hs.
  assert (Hl : lstrip (rev s) = []).
  { rewrite <- (rev_involutive (lstrip (rev s))), Hs. reflexivity. }
  apply lstrip_nil in Hl. destruct s as [|c s]; [congruence|].
  simpl in Hh. rewrite List.Forall_forall in Hl.
  specialize (Hl c). rewrite Hl in Hh; [discriminate|].
  apply in_rev. rewrite rev_involutive. left. reflexivity.
Qed.

Lemma strip_trimmed_id (s : pystr) : trimmed s -> strip s = s.
Proof.
  intros [Hh Hl]. unfold strip. rewrite (lstrip_solid s Hh).
  unfold rstrip. rewrite (lstrip_solid _ Hl). apply rev_involutive.
Qed.

Lemma clean_text_trimmed (x : pystr) : trimmed (clean_text x).
Proof. apply strip_trimmed. Qed.

(** ** Sentences *)

Lemma sentence_end_not_space (c : pychar) : is_sentence_end c = true -> is_space c = false.
Proof.
  unfold is_sentence_end. intros H.
  apply orb_true_iff in H as [H|H]; [apply orb_true_iff in H as [H|H]|];
    apply N.eqb_eq in H; subst c; reflexivity.
Qed.

Lemma re_split_cons (t : pystr) : exists p ps, re_split_sentences t = p :: ps.
Proof.
  induction t as [|c rest (p & ps & IH)]; simpl; [eauto|].
  rewrite IH. destruct (is_sentence_end c && head_is_space rest); eauto.
Qed.

(** The first piece starts as the text does. *)
Lemma re_split_first (t p : pystr) (ps : list pystr) :
  re_split_sentences t = p :: ps -> solid t -> solid p.
Proof.
  destruct t as [|c rest]; intros H [Hne Hh]; [congruence|].
  simpl in H. destruct (re_split_cons rest) as (p0 & ps0 & E). rewrite E in H.
  destruct (is_sentence_end c && head_is_space rest); inversion H; subst;
    (split; [discriminate | exact Hh]).
Qed.

Lemma re_split_first_lstrip (t p : pystr) (ps : list pystr) :
  re_split_sentences t = p :: ps -> lstrip t <> [] -> lstrip p <> [].
Proof.
  revert p ps. induction t as [|c rest IH]; intros p ps H Ht; [simpl in Ht; congruence|].
  simpl in H. destruct (re_split_cons rest) as (p0 & ps0 & E). rewrite E in H.
  destruct (is_sentence_end c && head_is_space rest) eqn:Hc.
  - inversion H; subst. apply andb_true_iff in Hc as [Hc _].
    simpl. rewrite (sentence_end_not_space c Hc). discriminate.
  - inversion H; subst. simpl in *. destruct (is_space c); [|discriminate].
    eapply IH; eauto.
Qed.

Lemma rev_head_cons (c : pychar) (rest : pystr) :
  rest <> [] -> head_is_space (rev (c :: rest)) = head_is_space (rev rest).
Proof.
  intros H. simpl. apply head_is_space_app.
  intros E. apply H. rewrite <- (rev_involutive rest), E. reflexivity.
Qed.

Lemma lstrip_last_solid (s : pystr) :
  s <> [] -> head_is_space (rev s) = false -> lstrip s <> [].
Proof.
  intros Hne Hl E. apply lstrip_nil in E.
  assert (Hr : rev s <> []).
  { intros Er. apply Hne. rewrite <- (rev_involutive s), Er. reflexivity. }
  destruct (rev s) as [|c r] eqn:Es; [congruence|]. simpl in Hl.
  rewrite List.Forall_forall in E. rewrite (E c) in Hl; [discriminate|].
  apply (proj2 (in_rev s c)). rewrite Es. left. reflexivity.
Qed.

(** When the text does not end with whitespace, every piece after the first
    is non-empty and starts with a character that is not whitespace. *)
Lemma re_split_rest_solid (t p : pystr) (ps : list pystr) :
  re_split_sentences t = p :: ps -> head_is_space (rev t) = false ->
  List.Forall solid ps.
Proof.
  revert p ps. induction t as [|c rest IH]; intros p ps H Hl.
  - simpl in H. inversion H. constructor.
  - simpl in H. destruct (re_split_cons rest) as (p0 & ps0 & E). rewrite E in H.
    destruct rest as [|c' rest'].
    + simpl in E. inversion E; subst. rewrite andb_false_r in H.
      inversion H. constructor.
    + assert (Hne : c' :: rest' <> []) by discriminate.
      rewrite (rev_head_cons c _ Hne) in Hl.
      specialize (IH _ _ E Hl).
      destruct (is_sentence_end c && head_is_space (c' :: rest')); inversion H; subst.
      * constructor; [|exact IH]. split; [|apply lstrip_head].
        eapply re_split_first_lstrip; [exact E|].
        apply lstrip_last_solid; assumption.
      * exact IH.
Qed.

Lemma re_split_solid (t : pystr) :
  t <> [] -> trimmed t -> List.Forall solid (re_split_sentences t).
Proof.
  intros Hne [Hh Hl]. destruct (re_split_cons t) as (p & ps & E). rewrite E.
  constructor.
  - eapply re_split_first; [exact E|]. split; assumption.
  - eapply re_split_rest_solid; eauto.
Qed.

(** ** The packing loop and the greedy packing of the specification *)

Lemma fold_pack_spec (maxSize : Z) (sentences : list pystr) :
  forall chunks current,
    (let '(chunks', current') :=
       fold_left (pack_sentence maxSize) sentences (chunks, current) in
     if truthy current' then chunks' ++ [strip current'] else chunks')
    = chunks ++ map strip (pack_spec maxSize current sentences).
Proof.
  induction sentences as [|s rest IH]; intros chunks current; simpl.
  - unfold close_chunk. destruct (truthy current); simpl; [reflexivity|].
    rewrite app_nil_r. reflexivity.
  - destruct (len current + len s + 1 <=? maxSize).
    + rewrite IH. unfold join_sentence.
      destruct current; reflexivity.
    + rewrite IH. unfold close_chunk. destruct (truthy current); simpl; [|reflexivity].
      rewrite <- app_assoc. reflexivity.
Qed.

Lemma split_into_chunks_long (self : DocumentProcessor) (t : pystr) :
  chunk_size self < len t ->
  split_into_chunks self t =
  map strip (pack_spec (chunk_size self) [] (re_split_sentences t)).
Proof.
  intros H. unfold split_into_chunks.
  destruct (Z.leb_spec (len t) (chunk_size self)); [lia|].
  apply (fold_pack_spec (chunk_size self) (re_split_sentences t) [] []).
Qed.

Lemma split_into_chunks_short (self : DocumentProcessor) (t : pystr) :
  len t <= chunk_size self -> split_into_chunks self t = [t].
Proof.
  intros H. unfold split_into_chunks.
  destruct (Z.leb_spec (len t) (chunk_size self)); [reflexivity|lia].
Qed.

Lemma join_sentence_solid (current s : pystr) :
  current = [] \/ solid current -> solid s -> solid (join_sentence current s).
Proof.
  intros [->|[Hne Hh]] Hs; [exact Hs|].
  unfold join_sentence. destruct current as [|c r]; [congruence|].
  simpl. split; [discriminate|exact Hh].
Qed.

Lemma pack_spec_solid (maxSize : Z) (sentences : list pystr) :
  forall current,
    current = [] \/ solid current -> List.Forall solid sentences ->
    List.Forall solid (pack_spec maxSize current sentences).
Proof.
  induction sentences as [|s rest IH]; intros current Hc Hs; simpl.
  - unfold close_chunk. destruct Hc as [->|Hc]; [constructor|].
    destruct current; [destruct Hc; congruence|]. repeat constructor; apply Hc.
  - inversion Hs; subst.
    destruct (len current + len s + 1 <=? maxSize).
    + apply IH; [right; apply join_sentence_solid|]; assumption.
    + apply List.Forall_app. split; [|apply IH; auto].
      unfold close_chunk. destruct Hc as [->|Hc]; [constructor|].
      destruct current; [destruct Hc; congruence|]. repeat constructor; apply Hc.
Qed.

(** A sentence that does not fit [maxSize] closes the open chunk and is
    closed by the next sentence: it is a chunk of its own. *)
Lemma pack_spec_oversized_current (maxSize : Z) (current : pystr) (sentences : list pystr) :
  0 <= maxSize -> maxSize < len current ->
  In current (pack_spec maxSize current sentences).
Proof.
  intros H0 H. assert (Ht : close_chunk current = [current]).
  { unfold close_chunk. destruct current; [unfold len in H; simpl in H; lia|reflexivity]. }
  destruct sentences as [|s rest]; simpl.
  - rewrite Ht. left. reflexivity.
  - destruct (Z.leb_spec (len current + len s + 1) maxSize).
    + unfold len in *. lia.
    + rewrite Ht. left. reflexivity.
Qed.

Lemma pack_spec_oversized (maxSize : Z) (sentences : list pystr) (s : pystr) :
  forall current,
    0 <= maxSize -> In s sentences -> maxSize < len s ->
    In s (pack_spec maxSize current sentences).
Proof.
  induction sentences as [|s0 rest IH]; intros current H0 Hin Hs; [destruct Hin|].
  simpl. destruct Hin as [->|Hin].
  - destruct (Z.leb_spec (len current + len s + 1) maxSize).
    + unfold len in *. lia.
    + apply in_or_app. right. apply pack_spec_oversized_current; assumption.
  - destruct (len current + len s0 + 1 <=? maxSize).
    + apply IH; assumption.
    + apply in_or_app. right. apply IH; assumption.
Qed.

Lemma pack_spec_nonempty (maxSize : Z) (sentences : list pystr) :
  forall current, current <> [] -> pack_spec maxSize current sentences <> [].
Proof.
  induction sentences as [|s rest IH]; intros current Hc; simpl.
  - destruct current; [congruence|discriminate].
  - destruct (len current + len s + 1 <=? maxSize).
    + apply IH. unfold join_sentence. destruct current; [congruence|discriminate].
    + destruct current; [congruence|discriminate].
Qed.

(** With a non-negative chunk size every text gives at least one piece. *)
Lemma split_into_chunks_nonempty (self : DocumentProcessor) (t : pystr) :
  0 <= chunk_size self -> split_into_chunks self t <> [].
Proof.
  intros H0. destruct (Z.le_gt_cases (len t) (chunk_size self)) as [H|H].
  - rewrite split_into_chunks_short by assumption. discriminate.
  - rewrite split_into_chunks_long by assumption.
    destruct t as [|c rest]; [unfold len in H; simpl in H; lia|].
    destruct (re_split_cons (c :: rest)) as (p & ps & E). rewrite E.
    assert (Hp : p <> []).
    { simpl in E. destruct (re_split_cons rest) as (p0 & ps0 & E0). rewrite E0 in E.
      destruct (is_sentence_end c && head_is_space rest); inversion E; discriminate. }
    intros Hm. apply map_eq_nil in Hm. revert Hm. simpl.
    destruct (len [] + len p + 1 <=? chunk_size self); simpl.
    + apply pack_spec_nonempty. unfold join_sentence. simpl. exact Hp.
    + apply pack_spec_nonempty. exact Hp.
Qed.

(** The pieces of a cleaned text are not empty, unless the text is. *)
Lemma split_clean_nonempty (self : DocumentProcessor) (x : pystr) :
  clean_text x <> [] ->
  List.Forall (fun t => t <> []) (split_into_chunks self (clean_text x)).
Proof.
  intros Hne. destruct (Z.le_gt_cases (len (clean_text x)) (chunk_size self)) as [H|H].
  - rewrite split_into_chunks_short by assumption. repeat constructor. exact Hne.
  - rewrite split_into_chunks_long by assumption.
    apply List.Forall_map. eapply List.Forall_impl; [intros a; apply strip_solid|].
    apply pack_spec_solid; [left; reflexivity|].
    apply re_split_solid; [exact Hne|apply clean_text_trimmed].
Qed.

(** ** On a trimmed text, stripping changes nothing *)

Lemma rev_nonempty {A} (l : list A) : l <> [] -> rev l <> [].
Proof. intros H E. apply H. rewrite <- (rev_involutive l), E. reflexivity. Qed.

Lemma lstrip_last (p : pystr) :
  head_is_space (rev p) = false -> head_is_space (rev (lstrip p)) = false.
Proof.
  intros H. destruct (lstrip_suffix p) as [q Hq].
  destruct (lstrip p) as [|c r] eqn:E; [reflexivity|].
  rewrite Hq, rev_app_distr in H.
  rewrite head_is_space_app in H; [exact H|apply rev_nonempty; discriminate].
Qed.

Lemma re_split_first_nonempty (t p : pystr) (ps : list pystr) :
  re_split_sentences t = p :: ps -> t <> [] -> p <> [].
Proof.
  destruct t as [|c rest]; intros H Hne; [congruence|].
  simpl in H. destruct (re_split_cons rest) as (p0 & ps0 & E). rewrite E in H.
  destruct (is_sentence_end c && head_is_space rest); inversion H; discriminate.
Qed.

(** When the text does not end with whitespace, no piece does. *)
Lemma re_split_last (t : pystr) :
  head_is_space (rev t) = false ->
  List.Forall (fun p => head_is_space (rev p) = false) (re_split_sentences t).
Proof.
  induction t as [|c rest IH]; intros Hl; [repeat constructor|].
  simpl. destruct (re_split_cons rest) as (p0 & ps0 & E). rewrite E.
  destruct rest as [|c' rest'].
  - simpl in E. inversion E; subst. rewrite andb_false_r.
    repeat constructor. exact Hl.
  - assert (Hne : c' :: rest' <> []) by discriminate.
    rewrite (rev_head_cons c _ Hne) in Hl. specialize (IH Hl). rewrite E in IH.
    inversion IH as [|? ? Hp0 Hps0]; subst.
    destruct (is_sentence_end c && head_is_space (c' :: rest')) eqn:Hc.
    + apply andb_true_iff in Hc as [Hc _].
      constructor; [simpl; apply sentence_end_not_space; exact Hc|].
      constructor; [apply lstrip_last; exact Hp0|exact Hps0].
    + constructor; [|exact Hps0].
      rewrite rev_head_cons; [exact Hp0|].
      eapply re_split_first_nonempty; [exact E|exact Hne].
Qed.

Lemma join_sentence_last (current s : pystr) :
  s <> [] -> head_is_space (rev s) = false ->
  head_is_space (rev (join_sentence current s)) = false.
Proof.
  intros Hne Hs. unfold join_sentence. destruct (truthy current); [|exact Hs].
  rewrite rev_app_distr. simpl. rewrite <- app_assoc.
  rewrite head_is_space_app; [exact Hs|apply rev_nonempty; exact Hne].
Qed.

Lemma pack_spec_trimmed (maxSize : Z) (sentences : list pystr) :
  forall current,
    current = [] \/ (solid current /\ head_is_space (rev current) = false) ->
    List.Forall (fun s => solid s /\ head_is_space (rev s) = false) sentences ->
    List.Forall trimmed (pack_spec maxSize current sentences).
Proof.
  assert (Hclose : forall current,
    current = [] \/ (solid current /\ head_is_space (rev current) = false) ->
    List.Forall trimmed (close_chunk current)).
  { intros current [->|[[Hne Hh] Hl]]; [constructor|].
    unfold close_chunk. destruct current; [congruence|].
    repeat constructor; assumption. }
  induction sentences as [|s rest IH]; intros current Hc Hs; simpl.
  - apply Hclose. exact Hc.
  - inversion Hs as [|? ? [Hsol Hlast] Hrest]; subst.
    destruct (len current + len s + 1 <=? maxSize).
    + apply IH; [|exact Hrest]. right. split.
      * apply join_sentence_solid; [|exact Hsol].
        destruct Hc as [->|[Hc _]]; [left; reflexivity|right; exact Hc].
      * apply join_sentence_last; [apply Hsol|exact Hlast].
    + apply List.Forall_app. split; [apply Hclose; exact Hc|].
      apply IH; [right; split; assumption|exact Hrest].
Qed.

Lemma map_strip_trimmed (l : list pystr) : List.Forall trimmed l -> map strip l = l.
Proof.
  induction 1 as [|s l Hs _ IH]; simpl; [reflexivity|].
  rewrite (strip_trimmed_id s Hs), IH. reflexivity.
Qed.

(** On a text without leading or trailing whitespace the code is the
    greedy packing of the specification. *)
Lemma split_into_chunks_trimmed (self : DocumentProcessor) (t : pystr) :
  0 <= chunk_size self -> trimmed t ->
  split_into_chunks self t = split_spec t (chunk_size self).
Proof.
  intros H0 Ht. unfold split_spec.
  destruct (Z.leb_spec (len t) (chunk_size self)) as [H|H].
  - apply split_into_chunks_short. exact H.
  - rewrite split_into_chunks_long by exact H.
    apply map_strip_trimmed. apply pack_spec_trimmed; [left; reflexivity|].
    assert (Hne : t <> []) by (intros ->; unfold len in H; simpl in H; lia).
    pose proof (re_split_solid t Hne Ht) as Hs.
    pose proof (re_split_last t (proj2 Ht)) as Hl.
    rewrite List.Forall_forall in *. intros s Hin. split; auto.
Qed.

(** ** process_documents *)

Lemma append_chunks_inv (doc : Doc) (total : nat) (texts : list pystr) :
  forall idx acc cs,
    append_chunks doc total idx texts acc = Ok cs ->
    exists new,
      cs = acc ++ new /\ map text new = texts /\
      map chunk_id new = seq idx (length texts) /\
      List.Forall (from_doc doc total) new.
Proof.
  induction texts as [|txt rest IH]; intros idx acc cs H; simpl in H.
  - inversion H; subst. exists []. rewrite app_nil_r. repeat split; constructor.
  - unfold make_chunk, getitem in H.
    destruct (doc !! "title") as [ttl|] eqn:Et; [|discriminate].
    destruct (doc !! "country") as [ctry|] eqn:Ec; [|discriminate].
    destruct (doc !! "category") as [cat|] eqn:Eg; [|discriminate].
    simpl in H. apply IH in H as (new & -> & Htx & Hid & Hall).
    eexists (_ :: new). rewrite <- app_assoc. simpl.
    split; [reflexivity|]. simpl. rewrite Htx, Hid.
    split; [reflexivity|]. split; [reflexivity|].
    constructor; [|exact Hall]. unfold from_doc. simpl.
    repeat split; assumption || reflexivity.
Qed.

Lemma process_loop_inv (self : DocumentProcessor) (docs : list Doc) :
  forall acc cs,
    process_loop self docs acc = Ok cs ->
    exists groups, cs = acc ++ concat groups /\ Forall2 (doc_group self) docs groups.
Proof.
  induction docs as [|doc rest IH]; intros acc cs H; simpl in H.
  - inversion H; subst. exists []. simpl. rewrite app_nil_r. split; [reflexivity|constructor].
  - unfold getitem in H. destruct (doc !! "content") as [content|] eqn:Ec; [|discriminate].
    simpl in H.
    destruct (append_chunks doc _ 0 _ acc) as [acc2|e] eqn:Ea; [|discriminate].
    simpl in H. apply IH in H as (groups & -> & Hg).
    apply append_chunks_inv in Ea as (new & -> & Htx & Hid & Hall).
    exists (new :: groups). simpl. rewrite <- app_assoc. split; [reflexivity|].
    constructor; [|exact Hg].
    assert (Hlen : length (split_into_chunks self (clean_text content)) = length new).
    { rewrite <- Htx. apply length_map. }
    exists content. rewrite <- Hlen. auto.
Qed.

Lemma well_formed_fields (doc : Doc) :
  well_formed doc = true ->
  exists content ttl ctry cat,
    doc !! "content" = Some content /\ doc !! "title" = Some ttl /\
    doc !! "country" = Some ctry /\ doc !! "category" = Some cat.
Proof.
  unfold well_formed, required_fields, has_field. simpl. intros H.
  destruct (doc !! "content"); [|discriminate].
  destruct (doc !! "title"); [|discriminate].
  destruct (doc !! "country"); [|discriminate].
  destruct (doc !! "category"); [|discriminate].
  eauto 10.
Qed.

Lemma make_chunk_ok (doc : Doc) (total idx : nat) (txt : pystr) :
  well_formed doc = true -> make_chunk doc total idx txt = Ok (chunk_of doc total idx txt).
Proof.
  intros H. destruct (well_formed_fields doc H) as (content & ttl & ctry & cat & _ & Ht & Hc & Hg).
  unfold make_chunk, chunk_of, getitem, dict_get. rewrite Ht, Hc, Hg. reflexivity.
Qed.

Lemma append_chunks_ok (doc : Doc) (total : nat) (texts : list pystr) :
  well_formed doc = true ->
  forall idx acc, exists cs, append_chunks doc total idx texts acc = Ok cs.
Proof.
  intros H. induction texts as [|txt rest IH]; intros idx acc; simpl; [eauto|].
  rewrite make_chunk_ok by assumption. simpl. apply IH.
Qed.

Lemma process_loop_ok (self : DocumentProcessor) (docs : list Doc) :
  forallb well_formed docs = true ->
  forall acc, exists cs, process_loop self docs acc = Ok cs.
Proof.
  induction docs as [|doc rest IH]; intros H acc; simpl; [eauto|].
  simpl in H. apply andb_true_iff in H as [Hd Hr].
  destruct (well_formed_fields doc Hd) as (content & ? & ? & ? & Hc & _).
  unfold getitem. rewrite Hc. simpl.
  destruct (append_chunks_ok doc (length (split_into_chunks self (clean_text content)))
              (split_into_chunks self (clean_text content)) Hd 0%nat acc) as [cs2 ->].
  simpl. apply IH. exact Hr.
Qed.

Lemma process_loop_app (self : DocumentProcessor) (pre rest : list Doc) :
  forall acc,
    process_loop self (pre ++ rest) acc =
    (acc2 <- process_loop self pre acc ;; process_loop self rest acc2).
Proof.
  induction pre as [|doc pre IH]; intros acc; simpl; [reflexivity|].
  destruct (getitem doc "content") as [content|e]; simpl; [|reflexivity].
  destruct (append_chunks doc _ 0 _ acc) as [acc2|e]; simpl; [|reflexivity].
  apply IH.
Qed.

(** The first document that lacks a required key stops the loop with the
    [KeyError] of the first key it lacks. *)
Lemma process_loop_missing (self : DocumentProcessor) (doc : Doc) (post : list Doc)
  (key : string) (acc : list DocumentChunk) :
  0 <= chunk_size self -> first_missing doc = Some key ->
  process_loop self (doc :: post) acc = Raise (KeyError key).
Proof.
  intros H0 Hk. simpl. unfold first_missing, required_fields, has_field in Hk.
  simpl in Hk. unfold getitem at 1.
  destruct (doc !! "content") as [content|] eqn:Ec; simpl in *; [|congruence].
  pose proof (split_into_chunks_nonempty self (clean_text content) H0) as Hne.
  destruct (split_into_chunks self (clean_text content)) as [|txt rest]; [congruence|].
  simpl. unfold make_chunk, getitem.
  destruct (doc !! "title"); simpl in *; [|congruence].
  destruct (doc !! "country"); simpl in *; [|congruence].
  destruct (doc !! "category"); simpl in *; [discriminate|congruence].
Qed.

Lemma first_missing_spec (doc : Doc) :
  well_formed doc = false ->
  exists key, first_missing doc = Some key /\ In key required_fields /\ doc !! key = None.
Proof.
  unfold well_formed, first_missing, required_fields, has_field. simpl. intros H.
  destruct (doc !! "content") eqn:E1; simpl in *; [|eauto 10].
  destruct (doc !! "title") eqn:E2; simpl in *; [|eauto 10].
  destruct (doc !! "country") eqn:E3; simpl in *; [|eauto 10].
  destruct (doc !! "category") eqn:E4; simpl in *; [discriminate|eauto 10].
Qed.

Lemma first_malformed (docs : list Doc) :
  forallb well_formed docs = false ->
  exists pre doc post,
    docs = pre ++ doc :: post /\ forallb well_formed pre = true /\ well_formed doc = false.
Proof.
  induction docs as [|doc rest IH]; simpl; intros H; [discriminate|].
  destruct (well_formed doc) eqn:Hd; simpl in H.
  - destruct (IH H) as (pre & doc2 & post & -> & Hp & Hb).
    exists (doc :: pre), doc2, post. simpl. rewrite Hd. auto.
  - exists [], doc, rest. auto.
Qed.

(** ** The polling loop of search *)

Lemma waited_below (n : nat) :
  (n < max_polls)%nat -> PrimFloat.ltb (waited_after n) max_wait = true.
Proof.
  unfold max_polls. intros H.
  do 25 (destruct n as [|n]; [vm_compute; reflexivity|]). lia.
Qed.

Lemma waited_reached : PrimFloat.ltb (waited_after max_polls) max_wait = false.
Proof. vm_compute. reflexivity. Qed.

(** After 24 waits [waited] is 4.800000000000002, after 25 it is
    5.000000000000002. *)
Example waited_values :
  waited_after 24 = 0x1.3333333333335p+2%float /\
  waited_after 25 = 0x1.4000000000002p+2%float.
Proof. split; vm_compute; reflexivity. Qed.

Lemma background_country (bg : option Disk) (self : FAISSRetriever) :
  Retriever.country (background bg self) = Retriever.country self.
Proof.
  destruct bg as [disk|]; [|reflexivity]. unfold background, load_index.
  destruct (index_file disk); [|reflexivity].
  destruct (metadata_file disk); reflexivity.
Qed.

Section Polling.

(** What the background loader does, wait by wait. *)
Variable bg : nat -> option Disk.

Lemma wait_loop_eq (fuel : nat) (self : FAISSRetriever)
  (waited : float) (n : nat) :
  wait_loop fuel bg self waited n =
  if is_None (Retriever.index self) && PrimFloat.ltb waited max_wait then
    match fuel with
    | O => None
    | S fuel' =>
        wait_loop fuel' bg (background (bg n) self) (PrimFloat.add waited wait_step) (S n)
    end
  else Some (self, waited, n).
Proof. destruct fuel; reflexivity. Qed.

Lemma wait_loop_loaded (fuel : nat) (self : FAISSRetriever)
  (waited : float) (n : nat) :
  Retriever.index self <> None -> wait_loop fuel bg self waited n = Some (self, waited, n).
Proof.
  intros H. destruct (Retriever.index self) eqn:E; [|congruence].
  rewrite wait_loop_eq, E. reflexivity.
Qed.

(** From wait number [n] on, the loop ends within the [max_polls - n] waits
    that are left; it keeps the country; and when it ends with the index
    still absent, all [max_polls] waits were made. *)
Lemma wait_loop_from (k : nat) :
  forall n fuel self,
    (n + k = max_polls)%nat -> (k <= fuel)%nat ->
    exists self' waited m,
      wait_loop fuel bg self (waited_after n) n = Some (self', waited, m) /\
      (n <= m <= max_polls)%nat /\
      waited = waited_after m /\
      Retriever.country self' = Retriever.country self /\
      (Retriever.index self' = None ->
       m = max_polls /\ PrimFloat.ltb waited max_wait = false).
Proof.
  induction k as [|k IH]; intros n fuel self Hn Hf.
  - assert (n = max_polls) by lia. subst n.
    exists self, (waited_after max_polls), max_polls.
    split; [|split; [lia|split; [reflexivity|split; [reflexivity|
      intros _; split; [reflexivity|apply waited_reached]]]]].
    rewrite wait_loop_eq, waited_reached, andb_false_r. reflexivity.
  - destruct (Retriever.index self) as [ix|] eqn:E.
    + exists self, (waited_after n), n.
      split; [apply wait_loop_loaded; congruence|].
      split; [lia|]. split; [reflexivity|]. split; [reflexivity|]. intros H. congruence.
    + destruct fuel as [|fuel]; [lia|]. rewrite wait_loop_eq, E.
      rewrite waited_below by lia. cbn [is_None andb].
      change (PrimFloat.add (waited_after n) wait_step) with (waited_after (S n)).
      destruct (IH (S n) fuel (background (bg n) self)) as (self' & w & m & Hw & Hm & Hwa & Hc & Hnone);
        [lia|lia|].
      exists self', w, m. split; [exact Hw|]. split; [lia|]. split; [exact Hwa|].
      split; [rewrite Hc; apply background_country|exact Hnone].
Qed.

End Polling.

(** [H] says that a run ended in some state with some exception: name them
    and settle the parts of the goal that only read the state. *)
Ltac raised_in H :=
  inversion H; subst; simpl; repeat (split; [reflexivity|]).

(** ** build_index *)

(** A run that ends with the outcome [r], in terms of its final state. *)
Lemma run_eta {A} (out : (FAISSRetriever * Disk) * result A) (r : result A) :
  snd out = r -> out = ((fst (fst out), snd (fst out)), r).
Proof. destruct out as [[self disk] r0]. simpl. intros ->. reflexivity. Qed.

Lemma fold_append_metadata (chunk_objects : list DocumentChunk) :
  forall metadata texts,
    fold_left append_metadata chunk_objects (metadata, texts) =
    (metadata ++ map chunk_dict chunk_objects, texts ++ map text chunk_objects).
Proof.
  induction chunk_objects as [|c rest IH]; intros metadata texts; simpl.
  - rewrite !app_nil_r. reflexivity.
  - unfold append_metadata at 2. simpl. rewrite IH, <- !app_assoc. reflexivity.
Qed.

(** The state [save_index] ends in: the retriever is not touched; the disk
    is written up to the first failing call. *)
Lemma save_index_eq (env : Env) (self : FAISSRetriever) (disk : Disk) :
  save_index env (self, disk) =
  match makedirs_error env with
  | Some e => ((self, disk), Raise e)
  | None =>
      match write_index_error env with
      | Some e => ((self, disk), Raise e)
      | None =>
          match pickle_dump_error env with
          | Some e =>
              ((self, {| index_file := Retriever.index self;
                         metadata_file := metadata_file disk |}), Raise e)
          | None =>
              ((self, {| index_file := Retriever.index self;
                         metadata_file := Some (Retriever.chunks self) |}), Ok tt)
          end
      end
  end.
Proof.
  unfold save_index, bindM, io, call, get_self, get_disk, put_disk. simpl.
  destruct (makedirs_error env); [reflexivity|].
  destruct (write_index_error env); [reflexivity|].
  destruct (pickle_dump_error env); reflexivity.
Qed.

(** [build_index], step by step. *)
Lemma build_index_eq (env : Env) (self : FAISSRetriever) (disk : Disk) :
  build_index env (self, disk) =
  match load_documents env (Retriever.country self) with
  | Raise e => ((self, disk), Raise e)
  | Ok documents =>
      match process_documents {| chunk_size := 500 |} documents with
      | Raise e => ((self, disk), Raise e)
      | Ok chunk_objects =>
          let self1 := set_chunks self (map chunk_dict chunk_objects) in
          match encode_texts env (map text chunk_objects) with
          | Raise e => ((self1, disk), Raise e)
          | Ok embeddings =>
              match shape_1 embeddings with
              | Raise e => ((self1, disk), Raise e)
              | Ok dimension =>
                  save_index env
                    (set_index self1 (Some {| d := dimension; xb := rows embeddings |}), disk)
              end
          end
      end
  end.
Proof.
  unfold build_index, bindM, call, get_self, put_self. simpl.
  destruct (load_documents env (Retriever.country self)) as [documents|e]; [|reflexivity].
  destruct (process_documents {| chunk_size := 500 |} documents) as [chunk_objects|e];
    [|reflexivity].
  rewrite fold_append_metadata. simpl.
  destruct (encode_texts env (map text chunk_objects)) as [embeddings|e]; [|reflexivity].
  destruct (shape_1 embeddings) as [dimension|e]; reflexivity.
Qed.

(** ** The hits of the index *)

Lemma insert_hit_Forall (P : Q * Z -> Prop) (h : Q * Z) (hs : list (Q * Z)) :
  P h -> List.Forall P hs -> List.Forall P (insert_hit h hs).
Proof.
  intros Hh. induction 1 as [|h' rest Hh' Hrest IH]; simpl; [repeat constructor; exact Hh|].
  destruct (Qle_bool (fst h') (fst h)); repeat constructor; assumption.
Qed.

Lemma fold_insert_Forall (P : Q * Z -> Prop) (hs : list (Q * Z)) :
  forall acc, List.Forall P acc -> List.Forall P hs ->
    List.Forall P (fold_left (fun acc h => insert_hit h acc) hs acc).
Proof.
  induction hs as [|h rest IH]; intros acc Hacc Hhs; simpl; [exact Hacc|].
  inversion Hhs; subst. apply IH; [apply insert_hit_Forall|]; assumption.
Qed.

Lemma sort_hits_Forall (P : Q * Z -> Prop) (hs : list (Q * Z)) :
  List.Forall P hs -> List.Forall P (sort_hits hs).
Proof. intros H. apply fold_insert_Forall; [constructor|exact H]. Qed.

Lemma insert_hit_length (h : Q * Z) (hs : list (Q * Z)) :
  length (insert_hit h hs) = S (length hs).
Proof.
  induction hs as [|h' rest IH]; simpl; [reflexivity|].
  destruct (Qle_bool (fst h') (fst h)); simpl; [rewrite IH|]; reflexivity.
Qed.

Lemma sort_hits_length (hs : list (Q * Z)) : length (sort_hits hs) = length hs.
Proof.
  unfold sort_hits.
  assert (H : forall acc, length (fold_left (fun acc h => insert_hit h acc) hs acc)
                          = (length acc + length hs)%nat).
  { induction hs as [|h rest IH]; intros acc; simpl; [lia|].
    rewrite IH, insert_hit_length. lia. }
  apply H.
Qed.

Lemma insert_hit_sorted (h : Q * Z) (hs : list (Q * Z)) :
  StronglySorted nearer hs -> StronglySorted nearer (insert_hit h hs).
Proof.
  induction 1 as [|h' rest Hs IH Hall]; simpl; [repeat constructor|].
  destruct (Qle_bool (fst h') (fst h)) eqn:E.
  - constructor; [exact IH|]. apply insert_hit_Forall; [|exact Hall].
    apply Qle_bool_iff. exact E.
  - assert (Hlt : nearer h h').
    { unfold nearer. apply Qlt_le_weak, Qnot_le_lt. intros Hle.
      apply Qle_bool_iff in Hle. congruence. }
    constructor; [constructor; assumption|]. constructor; [exact Hlt|].
    eapply List.Forall_impl; [|exact Hall]. intros a Ha. unfold nearer in *.
    eapply Qle_trans; eassumption.
Qed.

Lemma sort_hits_sorted (hs : list (Q * Z)) : StronglySorted nearer (sort_hits hs).
Proof.
  unfold sort_hits.
  assert (H : forall acc, StronglySorted nearer acc ->
            StronglySorted nearer (fold_left (fun acc h => insert_hit h acc) hs acc)).
  { induction hs as [|h rest IH]; intros acc Hacc; simpl; [exact Hacc|].
    apply IH, insert_hit_sorted, Hacc. }
  apply H. constructor.
Qed.

Lemma take_sorted {A} (R : A -> A -> Prop) (l : list A) :
  StronglySorted R l -> forall k, StronglySorted R (take k l).
Proof.
  induction 1 as [|a l Hs IH Hall]; intros [|k]; simpl; try constructor.
  - apply IH.
  - apply Forall_take. exact Hall.
Qed.

Lemma fvec_L2sqr_nonneg (x y : vector) : (0 <= fvec_L2sqr x y)%Q.
Proof.
  unfold fvec_L2sqr. induction (combine x y) as [|[a b] rest IH]; simpl.
  - apply Qle_refl.
  - assert (Hsq : (0 <= (a - b) * (a - b))%Q).
    { destruct (a - b)%Q as [n m]. unfold Qle, Qmult. simpl. nia. }
    apply (Qplus_le_compat 0 _ 0 _ Hsq) in IH. rewrite Qplus_0_l in IH. exact IH.
Qed.

(** Every candidate hit is a stored vector at its distance. *)
Lemma all_hits_spec (ix : IndexFlatL2) (query : vector) :
  List.Forall (fun h => exists i x,
                 snd h = Z.of_nat i /\ xb ix !! i = Some x /\ fst h = fvec_L2sqr query x)
              (all_hits ix query).
Proof.
  apply Forall_lookup. intros i h Hi. unfold all_hits in Hi.
  rewrite list_lookup_imap in Hi.
  destruct (xb ix !! i) as [x|] eqn:E; [|discriminate]. simpl in Hi.
  inversion Hi; subst. exists i, x. auto.
Qed.

Lemma filter_all {A} (p : A -> bool) (l : list A) :
  List.Forall (fun a => p a = true) l -> List.filter p l = l.
Proof.
  induction 1 as [|a l Ha _ IH]; simpl; [reflexivity|]. rewrite Ha, IH. reflexivity.
Qed.

Lemma near_hits_spec (ix : IndexFlatL2) (query : vector) :
  List.Forall (fun h => exists i x,
                 snd h = Z.of_nat i /\ xb ix !! i = Some x /\ fst h = fvec_L2sqr query x)
              (near_hits ix query).
Proof.
  unfold near_hits. pose proof (all_hits_spec ix query) as H.
  rewrite List.Forall_forall in *. intros h Hh. apply H.
  apply List.filter_In in Hh. apply Hh.
Qed.

Lemma near_hits_length (ix : IndexFlatL2) (query : vector) :
  (length (near_hits ix query) <= ntotal ix)%nat.
Proof.
  unfold near_hits, ntotal.
  rewrite <- (length_imap (fun i x => (fvec_L2sqr query x, Z.of_nat i)) (xb ix)).
  apply filter_length_le.
Qed.

(** When every stored vector is nearer than [FLT_MAX], all of them are
    candidates. *)
Lemma near_hits_all (ix : IndexFlatL2) (query : vector) :
  List.Forall (fun x => Qle_bool FLT_MAX (fvec_L2sqr query x) = false) (xb ix) ->
  near_hits ix query = all_hits ix query.
Proof.
  intros H. unfold near_hits. apply filter_all.
  pose proof (all_hits_spec ix query) as Hs.
  rewrite List.Forall_forall in *. intros h Hh.
  destruct (Hs h Hh) as (i & x & _ & Hx & ->).
  rewrite (H x); [reflexivity|]. apply list_elem_of_In.
  eapply list_elem_of_lookup_2. exact Hx.
Qed.

(** The two assertions, and what a search that passes them returns. *)
Lemma faiss_search_inv (ix : IndexFlatL2) (query : vector) (k : nat) (hits : list (Q * Z)) :
  faiss_search ix query k = Ok hits ->
  length query = d ix /\ (0 < k)%nat /\
  hits = take k (sort_hits (near_hits ix query))
         ++ replicate (k - length (take k (sort_hits (near_hits ix query)))) (FLT_MAX, -1).
Proof.
  unfold faiss_search. destruct (Nat.eqb_spec (length query) (d ix)) as [Hd|]; [|discriminate].
  destruct (Nat.eqb_spec k 0) as [|Hk]; [discriminate|]. simpl.
  intros H. inversion H. split; [exact Hd|]. split; [lia|reflexivity].
Qed.

Lemma faiss_search_run (ix : IndexFlatL2) (query : vector) (k : nat) :
  length query = d ix -> (0 < k)%nat ->
  faiss_search ix query k
  = Ok (take k (sort_hits (near_hits ix query))
        ++ replicate (k - length (take k (sort_hits (near_hits ix query)))) (FLT_MAX, -1)).
Proof.
  intros Hd Hk. unfold faiss_search.
  destruct (Nat.eqb_spec (length query) (d ix)); [|congruence].
  destruct (Nat.eqb_spec k 0); [lia|]. reflexivity.
Qed.

Lemma faiss_search_length (ix : IndexFlatL2) (query : vector) (k : nat) (hits : list (Q * Z)) :
  faiss_search ix query k = Ok hits -> length hits = k.
Proof.
  intros H. apply faiss_search_inv in H as (_ & _ & ->).
  rewrite length_app, length_replicate, length_take. lia.
Qed.

(** With enough candidates no slot is left unfilled. *)
Lemma faiss_search_within (ix : IndexFlatL2) (query : vector) (k : nat) (hits : list (Q * Z)) :
  faiss_search ix query k = Ok hits -> (k <= length (near_hits ix query))%nat ->
  hits = take k (sort_hits (near_hits ix query)).
Proof.
  intros H Hk. apply faiss_search_inv in H as (_ & _ & ->).
  rewrite length_take, sort_hits_length.
  replace (k - k `min` length (near_hits ix query))%nat with 0%nat by lia.
  apply app_nil_r.
Qed.


Lemma faiss_search_distances (ix : IndexFlatL2) (query : vector) (k : nat)
  (hits : list (Q * Z)) :
  faiss_search ix query k = Ok hits -> List.Forall (fun h => (0 <= fst h)%Q) hits.
Proof.
  intros H. apply faiss_search_inv in H as (_ & _ & ->). apply List.Forall_app. split.
  - apply Forall_take, sort_hits_Forall.
    eapply List.Forall_impl; [|apply near_hits_spec].
    intros h (i & x & _ & _ & ->). apply fvec_L2sqr_nonneg.
  - apply Forall_replicate. simpl. discriminate.
Qed.

(** ** The loop over the hits *)

Lemma list_getitem_nat {A} (l : list A) (i : nat) (x : A) :
  list_getitem l (Z.of_nat i) = Ok x -> l !! i = Some x.
Proof.
  unfold list_getitem. destruct (Z.ltb_spec (Z.of_nat i) 0) as [H|_]; [lia|].
  destruct (_ && _); [|discriminate]. rewrite Nat2Z.id.
  destruct (l !! i); [|discriminate]. intros H. inversion H. reflexivity.
Qed.


(** The results are, in order, the hits whose label passes the guard, each
    as a copy of the chunk at that label with the score of the hit. *)
Lemma collect_results_inv (chunks : list ChunkDict) (hits : list (Q * Z)) :
  forall acc results,
    collect_results chunks hits acc = Ok results ->
    exists new,
      results = acc ++ new /\
      Forall2 (fun h r => exists chunk,
                 list_getitem chunks (snd h) = Ok chunk /\
                 r = <["similarity_score" := PFloat (/ (1 + fst h))%Q]> chunk)
              (List.filter (fun h => snd h <? len chunks) hits) new.
Proof.
  induction hits as [|[distance idx] rest IH]; intros acc results H; simpl in H.
  - inversion H; subst. exists []. rewrite app_nil_r. split; [reflexivity|constructor].
  - simpl. destruct (idx <? len chunks); [|apply IH; exact H].
    destruct (list_getitem chunks idx) as [chunk|e] eqn:E; [|discriminate].
    simpl in H. apply IH in H as (new & -> & Hnew).
    eexists (_ :: new). rewrite <- app_assoc. split; [reflexivity|].
    constructor; [|exact Hnew]. exists chunk. auto.
Qed.



Lemma score_insert (chunk : ChunkDict) (q : Q) :
  score (<["similarity_score" := PFloat q]> chunk) = q.
Proof. unfold score. rewrite lookup_insert_eq. reflexivity. Qed.

Lemma similarity_range (distance : Q) :
  (0 <= distance)%Q -> (0 < / (1 + distance) /\ / (1 + distance) <= 1)%Q.
Proof.
  intros H. assert (Hpos : (0 < 1 + distance)%Q).
  { apply Qlt_le_trans with 1%Q; [reflexivity|].
    rewrite <- (Qplus_0_r 1) at 1. apply Qplus_le_r. exact H. }
  split; [apply Qinv_lt_0_compat; exact Hpos|].
  apply Qle_shift_inv_r; [exact Hpos|]. rewrite Qmult_1_l.
  rewrite <- (Qplus_0_r 1) at 1. apply Qplus_le_r. exact H.
Qed.

Lemma similarity_antitone (d1 d2 : Q) :
  (0 <= d1)%Q -> (d1 <= d2)%Q -> (/ (1 + d2) <= / (1 + d1))%Q.
Proof.
  intros H1 H12. assert (Hpos : forall x, (0 <= x)%Q -> (0 < 1 + x)%Q).
  { intros x Hx. apply Qlt_le_trans with 1%Q; [reflexivity|].
    rewrite <- (Qplus_0_r 1) at 1. apply Qplus_le_r. exact Hx. }
  assert (H2 : (0 <= d2)%Q) by (eapply Qle_trans; eassumption).
  apply Qle_shift_inv_r; [apply Hpos; exact H2|].
  apply Qle_trans with (/ (1 + d1) * (1 + d1))%Q.
  - rewrite Qmult_comm, Qmult_inv_r; [apply Qle_refl|].
    intros E. specialize (Hpos d1 H1). rewrite E in Hpos. discriminate Hpos.
  - apply Qmult_le_l; [apply Qinv_lt_0_compat, Hpos; exact H1|].
    apply Qplus_le_r. exact H12.
Qed.

(** Results that carry the scores of hits in ascending order of distance
    are in descending order of score. *)
Lemma scores_sorted (hits : list (Q * Z)) (results : list ChunkDict) :
  Forall2 (fun h r => (0 <= fst h)%Q /\ score r = (/ (1 + fst h))%Q) hits results ->
  StronglySorted nearer hits -> StronglySorted not_lower results.
Proof.
  induction 1 as [|h r hits results [H0 Hs] Hrest IH]; intros Hsorted; [constructor|].
  inversion Hsorted as [|? ? Hsorted' Hall]; subst.
  constructor; [apply IH; exact Hsorted'|].
  clear IH Hsorted Hsorted'. induction Hrest as [|h' r' hits results [H0' Hs'] _ IH'];
    [constructor|].
  inversion Hall; subst. constructor; [|apply IH'; assumption].
  unfold not_lower. rewrite Hs, Hs'. apply similarity_antitone; assumption.
Qed.

(** ** search *)

Lemma dom_chunk_dict (chunk : DocumentChunk) : dom (chunk_dict chunk) = chunk_keys.
Proof.
  unfold chunk_dict, chunk_keys. rewrite !dom_insert_L, dom_empty_L. set_solver.
Qed.

Lemma total_chunks_not_result_key : "total_chunks"%string ∉ result_keys.
Proof.
  unfold result_keys, chunk_keys. rewrite !elem_of_union, !elem_of_singleton.
  intuition discriminate.
Qed.

Lemma list_getitem_In {A} (l : list A) (i : Z) (x : A) :
  list_getitem l i = Ok x -> In x l.
Proof.
  unfold list_getitem. destruct (_ && _); [|discriminate].
  destruct (l !! _) as [y|] eqn:E; [|discriminate].
  intros H. inversion H; subst. apply list_elem_of_In.
  eapply list_elem_of_lookup_2. exact E.
Qed.

Lemma collect_results_keys (chunks : list ChunkDict) (hits : list (Q * Z)) :
  List.Forall (fun c => dom c = chunk_keys) chunks ->
  forall acc results,
    List.Forall (fun r => dom r = result_keys) acc ->
    collect_results chunks hits acc = Ok results ->
    List.Forall (fun r => dom r = result_keys) results.
Proof.
  intros Hc. induction hits as [|[distance idx] rest IH]; intros acc results Hacc H; simpl in H.
  - inversion H; subst. exact Hacc.
  - destruct (idx <? len chunks); [|eapply IH; eauto].
    destruct (list_getitem chunks idx) as [chunk|e] eqn:E; [|discriminate].
    simpl in H. eapply IH; [|exact H].
    apply List.Forall_app. split; [exact Hacc|]. repeat constructor.
    rewrite dom_insert_L. unfold result_keys. f_equal.
    rewrite List.Forall_forall in Hc. apply Hc. eapply list_getitem_In. exact E.
Qed.

Lemma search_index_inv (env : Env) (self : FAISSRetriever) (ix : IndexFlatL2)
  (query : pystr) (top_k : nat) (results : list ChunkDict) :
  search_index env self ix query top_k = Ok results ->
  exists q hits,
    encode_single env query = Ok q /\
    faiss_search ix q top_k = Ok hits /\
    collect_results (Retriever.chunks self) hits [] = Ok results.
Proof.
  unfold search_index. destruct (encode_single env query) as [q|e]; [|discriminate].
  simpl. destruct (faiss_search ix q top_k) as [hits|e] eqn:Eh; [|discriminate].
  simpl. destruct (collect_results _ _ []) as [rs|e] eqn:E; [|discriminate]. simpl.
  destruct (log_results rs); [|discriminate]. simpl. intros H. inversion H; subst.
  exists q, hits. split; [reflexivity|]. split; [exact Eh|exact E].
Qed.

Lemma search_index_keys (env : Env) (self : FAISSRetriever) (ix : IndexFlatL2)
  (query : pystr) (top_k : nat) (results : list ChunkDict) :
  List.Forall (fun c => dom c = chunk_keys) (Retriever.chunks self) ->
  search_index env self ix query top_k = Ok results ->
  List.Forall (fun r => dom r = result_keys) results.
Proof.
  intros Hc H. apply search_index_inv in H as (q & hits & _ & _ & E).
  eapply collect_results_keys; [exact Hc| |exact E]. constructor.
Qed.

(** Whatever [top_k] is, every score is in (0, 1]. *)
Lemma search_scores_range (env : Env) (self : FAISSRetriever) (ix : IndexFlatL2)
  (query : pystr) (top_k : nat) (results : list ChunkDict) :
  search_index env self ix query top_k = Ok results ->
  List.Forall (fun r => (0 < score r /\ score r <= 1)%Q) results.
Proof.
  intros H. apply search_index_inv in H as (q & hits & _ & Hh & H).
  apply collect_results_inv in H as (new & -> & Hnew). simpl.
  assert (Hd : List.Forall (fun h => (0 <= fst h)%Q)
                 (List.filter (fun h => snd h <? len (Retriever.chunks self)) hits)).
  { apply List.Forall_forall. intros h Hi. apply List.filter_In in Hi as [Hi _].
    pose proof (faiss_search_distances ix q top_k hits Hh) as Hall.
    rewrite List.Forall_forall in Hall. apply Hall. exact Hi. }
  induction Hnew as [|h r hs new (chunk & _ & ->) _ IH]; [constructor|].
  inversion Hd; subst. constructor; [|apply IH; assumption].
  rewrite score_insert. apply similarity_range. assumption.
Qed.

(** For [top_k <= size()], on a retriever with one chunk per vector, each
    vector nearer to the query than [FLT_MAX]: [search] returns [top_k]
    results; result number [j] is the chunk of the vector that is [j]-th
    nearest to the query, with the score [1 / (1 + distance)] of that
    vector; the scores do not increase. *)
Lemma search_scores_sorted (env : Env) (self : FAISSRetriever) (ix : IndexFlatL2)
  (query : pystr) (top_k : nat) (results : list ChunkDict) :
  length (Retriever.chunks self) = ntotal ix -> (top_k <= ntotal ix)%nat ->
  (forall q, encode_single env query = Ok q ->
     List.Forall (fun x => Qle_bool FLT_MAX (fvec_L2sqr q x) = false) (xb ix)) ->
  search_index env self ix query top_k = Ok results ->
  exists q,
    encode_single env query = Ok q /\
    length results = top_k /\
    Forall2 (scored ix (Retriever.chunks self) q)
            (take top_k (sort_hits (all_hits ix q))) results /\
    StronglySorted not_lower results.
Proof.
  intros Hlen Hk Hnear H. apply search_index_inv in H as (q & hits & Hq & Hh & H).
  exists q. split; [exact Hq|].
  pose proof (near_hits_all ix q (Hnear q Hq)) as Hall.
  apply faiss_search_within in Hh.
  2: { rewrite Hall. unfold all_hits. rewrite length_imap. exact Hk. }
  rewrite Hall in Hh. subst hits.
  apply collect_results_inv in H as (new & -> & Hnew). simpl.
  assert (Hspec : List.Forall (fun h => exists i x,
                    snd h = Z.of_nat i /\ xb ix !! i = Some x /\ fst h = fvec_L2sqr q x)
                    (take top_k (sort_hits (all_hits ix q)))).
  { apply Forall_take, sort_hits_Forall, all_hits_spec. }
  rewrite filter_all in Hnew.
  2: { eapply List.Forall_impl; [|exact Hspec]. intros h (i & x & Hl & Hx & _).
       apply lookup_lt_Some in Hx. apply Z.ltb_lt. unfold len, ntotal in *. lia. }
  assert (Hsc : Forall2 (scored ix (Retriever.chunks self) q)
                  (take top_k (sort_hits (all_hits ix q))) new).
  { clear Hk. induction Hnew as [|h r hs new (chunk & Hg & ->) _ IH]; [constructor|].
    inversion Hspec as [|? ? (i & x & Hl & Hx & Hf) Hspec']; subst.
    constructor; [|apply IH; exact Hspec'].
    exists i, x, chunk. rewrite Hl in Hg. apply list_getitem_nat in Hg.
    rewrite Hf. auto. }
  split; [|split; [exact Hsc|]].
  - apply Forall2_length in Hsc. rewrite <- Hsc, length_take, sort_hits_length.
    unfold all_hits. rewrite length_imap. unfold ntotal in Hk. lia.
  - apply (scores_sorted (take top_k (sort_hits (all_hits ix q)))).
    + eapply Forall2_impl; [exact Hsc|].
      intros h r (i & x & chunk & _ & _ & _ & Hf & ->).
      rewrite score_insert, Hf. split; [apply fvec_L2sqr_nonneg|reflexivity].
    + apply take_sorted, sort_hits_sorted.
Qed.


(** What a successful [build_index] leaves in the retriever and on disk. *)
Lemma build_index_ok (env : Env) (self self' : FAISSRetriever) (disk disk' : Disk) :
  build_index env (self, disk) = ((self', disk'), Ok tt) ->
  exists chunk_objects ix,
    Retriever.chunks self' = map chunk_dict chunk_objects /\
    Retriever.index self' = Some ix /\
    index_file disk' = Some ix /\
    metadata_file disk' = Some (map chunk_dict chunk_objects).
Proof.
  rewrite build_index_eq.
  destruct (load_documents env _) as [documents|e]; [|discriminate].
  destruct (process_documents _ documents) as [chunk_objects|e]; [|discriminate].
  simpl. destruct (encode_texts env _) as [embeddings|e]; [|discriminate].
  destruct (shape_1 embeddings) as [dimension|e]; [|discriminate].
  rewrite save_index_eq.
  destruct (makedirs_error env); [discriminate|].
  destruct (write_index_error env); [discriminate|].
  destruct (pickle_dump_error env); [discriminate|].
  intros H. inversion H; subst. simpl. eauto 10.
Qed.

Lemma Forall_chunk_keys (chunk_objects : list DocumentChunk) :
  List.Forall (fun c => dom c = chunk_keys) (map chunk_dict chunk_objects).
Proof.
  apply List.Forall_map. apply List.Forall_forall. intros c _. apply dom_chunk_dict.
Qed.

(** ** The chunker: claims *)

(** C4, as the claim states it, fails.  A text of ten spaces has no
    sentence boundary and is longer than a chunk size of 5: the claim has it
    emitted as one oversized chunk, the code emits one empty chunk, because
    every chunk it closes goes through [strip()]. *)
Lemma split_into_chunks_not_split_spec :
  re_split_sentences (repeat SPACE 10) = [repeat SPACE 10] /\
  split_spec (repeat SPACE 10) 5 = [repeat SPACE 10] /\
  split_into_chunks {| chunk_size := 5 |} (repeat SPACE 10) = [[]] /\
  ~ (forall self text, 0 < chunk_size self ->
       split_into_chunks self text = split_spec text (chunk_size self)).
Proof.
  split; [reflexivity|]. split; [reflexivity|]. split; [reflexivity|].
  intros H. specialize (H {| chunk_size := 5 |} (repeat SPACE 10) eq_refl).
  discriminate H.
Qed.

(** C4, amended: for a positive chunk size, [split_into_chunks] returns
    [[text]] unchanged when [len(text) <= chunk_size]; otherwise it splits on
    sentence boundaries and packs the sentences greedily while
    [len(current) + len(sentence) + 1 <= chunk_size], closing the chunk and
    starting a new one with the sentence that does not fit, and each chunk
    is emitted stripped of leading and trailing whitespace; a sentence
    longer than the chunk size is emitted, stripped, as a chunk of its own,
    never split.  On a text without leading or trailing whitespace, which
    is what [clean_text] returns, the stripping changes nothing. *)
Theorem split_into_chunks_packs (self : DocumentProcessor) (text : pystr) :
  0 < chunk_size self ->
  (len text <= chunk_size self -> split_into_chunks self text = [text]) /\
  (chunk_size self < len text ->
   split_into_chunks self text =
     map strip (pack_spec (chunk_size self) [] (re_split_sentences text)) /\
   forall s, In s (re_split_sentences text) -> chunk_size self < len s ->
     In s (pack_spec (chunk_size self) [] (re_split_sentences text)) /\
     In (strip s) (split_into_chunks self text)) /\
  (trimmed text -> split_into_chunks self text = split_spec text (chunk_size self)).
Proof.
  intros Hpos. split; [apply split_into_chunks_short|]. split.
  - intros Hlong. split; [apply split_into_chunks_long; exact Hlong|].
    intros s Hin Hs.
    assert (Hp : In s (pack_spec (chunk_size self) [] (re_split_sentences text))).
    { apply pack_spec_oversized; [lia|exact Hin|exact Hs]. }
    split; [exact Hp|].
    rewrite split_into_chunks_long by exact Hlong. apply in_map. exact Hp.
  - apply split_into_chunks_trimmed. lia.
Qed.

Lemma split_into_chunks_packs_witness :
  0 < chunk_size twelve /\
  (len four_sentences <= chunk_size twelve ->
   split_into_chunks twelve four_sentences = [four_sentences]) /\
  (chunk_size twelve < len four_sentences ->
   split_into_chunks twelve four_sentences =
     map strip (pack_spec (chunk_size twelve) [] (re_split_sentences four_sentences)) /\
   forall s, In s (re_split_sentences four_sentences) -> chunk_size twelve < len s ->
     In s (pack_spec (chunk_size twelve) [] (re_split_sentences four_sentences)) /\
     In (strip s) (split_into_chunks twelve four_sentences)) /\
  (trimmed four_sentences ->
   split_into_chunks twelve four_sentences = split_spec four_sentences (chunk_size twelve)).
Proof.
  split; [reflexivity|]. apply (split_into_chunks_packs twelve four_sentences). reflexivity.
Defined.

(** C6, as the claim states it, fails: the exception that a missing field
    raises is Python's [KeyError], there is no [DocumentFormatError]. *)
Lemma process_documents_no_DocumentFormatError :
  process_documents {| chunk_size := 500 |} [visa_doc; no_content_doc]
    = Raise (KeyError "content") /\
  ~ (exists e, process_documents {| chunk_size := 500 |} [visa_doc; no_content_doc] = Raise e
               /\ exn_class e = "DocumentFormatError"%string).
Proof.
  assert (H : process_documents {| chunk_size := 500 |} [visa_doc; no_content_doc]
              = Raise (KeyError "content")) by (vm_compute; reflexivity).
  split; [exact H|]. intros (e & He & Hc). rewrite H in He.
  inversion He; subst e. discriminate Hc.
Qed.

(** C6, amended: with a non-negative chunk size, a batch that contains a
    document lacking one of [content], [title], [country], [category] makes
    [process_documents] raise [KeyError] naming the first key that the first
    such document lacks; no chunk list is returned. *)
Theorem process_documents_missing_field (self : DocumentProcessor) (docs : list Doc) :
  0 <= chunk_size self -> forallb well_formed docs = false ->
  exists pre doc post key,
    docs = pre ++ doc :: post /\ forallb well_formed pre = true /\
    first_missing doc = Some key /\ In key required_fields /\ doc !! key = None /\
    process_documents self docs = Raise (KeyError key).
Proof.
  intros H0 Hbad.
  destruct (first_malformed docs Hbad) as (pre & doc & post & -> & Hpre & Hdoc).
  destruct (first_missing_spec doc Hdoc) as (key & Hkey & Hin & Hnone).
  exists pre, doc, post, key. repeat (split; [assumption || reflexivity|]).
  unfold process_documents. rewrite process_loop_app.
  destruct (process_loop_ok self pre Hpre []) as [acc ->]. simpl bind.
  apply process_loop_missing; assumption.
Qed.

Lemma process_documents_missing_field_witness :
  exists pre doc post key,
    [visa_doc; no_country_doc; no_content_doc] = pre ++ doc :: post /\
    forallb well_formed pre = true /\
    first_missing doc = Some key /\ In key required_fields /\ doc !! key = None /\
    process_documents {| chunk_size := 500 |} [visa_doc; no_country_doc; no_content_doc]
      = Raise (KeyError key).
Proof.
  apply (process_documents_missing_field {| chunk_size := 500 |}
           [visa_doc; no_country_doc; no_content_doc]).
  - discriminate.
  - vm_compute. reflexivity.
Defined.

(** C7: for a batch in which every document has the required fields,
    [process_documents] returns the chunks of the documents in document
    order; the chunks of one document carry the indices
    [0 .. total_chunks - 1] in order and all have the document's title,
    section, source url, country and category and the same [total_chunks]. *)
Theorem process_documents_groups (self : DocumentProcessor) (docs : list Doc) :
  forallb well_formed docs = true ->
  exists groups,
    process_documents self docs = Ok (concat groups) /\
    Forall2 (doc_group self) docs groups.
Proof.
  intros H. unfold process_documents.
  destruct (process_loop_ok self docs H []) as [cs Hcs].
  destruct (process_loop_inv self docs [] cs Hcs) as (groups & -> & Hg).
  exists groups. split; [exact Hcs|exact Hg].
Qed.

Lemma process_documents_groups_witness :
  exists groups,
    process_documents {| chunk_size := 30 |} [visa_doc; blank_doc] = Ok (concat groups) /\
    Forall2 (doc_group {| chunk_size := 30 |}) [visa_doc; blank_doc] groups.
Proof.
  apply (process_documents_groups {| chunk_size := 30 |} [visa_doc; blank_doc]).
  vm_compute. reflexivity.
Defined.

(** C8, as the claim states it, fails: a document whose content is blank
    gives one chunk whose text is the empty string. *)
Lemma process_documents_empty_text :
  process_documents {| chunk_size := 500 |} [blank_doc] =
    Ok [ {| text := []; title := py "Blank"; section := []; source_url := [];
            country := py "india"; category := py "civil";
            chunk_id := 0; total_chunks := 1 |} ] /\
  ~ (forall self docs cs, process_documents self docs = Ok cs ->
       List.Forall (fun c => text c <> []) cs).
Proof.
  assert (H : process_documents {| chunk_size := 500 |} [blank_doc] =
    Ok [ {| text := []; title := py "Blank"; section := []; source_url := [];
            country := py "india"; category := py "civil";
            chunk_id := 0; total_chunks := 1 |} ]) by (vm_compute; reflexivity).
  split; [exact H|]. intros Hall. specialize (Hall _ _ _ H).
  inversion Hall as [|c l Hc _]; subst. apply Hc. reflexivity.
Qed.

(** C8, amended: the chunks that [process_documents] returns are, in
    order, one group per document of the batch; the chunks of a group carry
    the provenance of their document and their texts are, in order, the
    pieces of the cleaned content of that document; and when that cleaned
    content is non-empty, every chunk of the group has a non-empty text. *)
Theorem process_documents_text_nonempty (self : DocumentProcessor) (docs : list Doc)
  (cs : list DocumentChunk) :
  process_documents self docs = Ok cs ->
  exists groups,
    cs = concat groups /\
    Forall2 (fun doc g =>
               doc_group self doc g /\
               forall content,
                 doc !! "content" = Some content -> clean_text content <> [] ->
                 List.Forall (fun c => text c <> []) g)
            docs groups.
Proof.
  intros H. unfold process_documents in H.
  apply process_loop_inv in H as (groups & -> & Hg). simpl.
  exists groups. split; [reflexivity|].
  eapply Forall2_impl; [exact Hg|]. intros doc g Hd. split; [exact Hd|].
  intros content Hcont Hne.
  destruct Hd as (content' & Hcont' & Htx & _).
  assert (content' = content) by congruence. subst content'.
  pose proof (split_clean_nonempty self content Hne) as Hall.
  rewrite <- Htx in Hall. rewrite List.Forall_forall in *.
  intros c Hc. apply Hall. apply in_map. exact Hc.
Qed.

Lemma process_documents_text_nonempty_witness :
  exists cs groups,
    process_documents {| chunk_size := 30 |} [visa_doc; blank_doc] = Ok cs /\
    cs = concat groups /\
    Forall2 (fun doc g =>
               doc_group {| chunk_size := 30 |} doc g /\
               forall content,
                 doc !! "content" = Some content -> clean_text content <> [] ->
                 List.Forall (fun c => text c <> []) g)
            [visa_doc; blank_doc] groups.
Proof.
  destruct (process_documents {| chunk_size := 30 |} [visa_doc; blank_doc]) as [cs|e] eqn:E;
    [|vm_compute in E; discriminate E].
  destruct (process_documents_text_nonempty {| chunk_size := 30 |} [visa_doc; blank_doc] cs E)
    as (groups & Hcs & Hg).
  exists cs, groups. split; [reflexivity|]. split; [exact Hcs|exact Hg].
Defined.

(** C9 fails on the code: [clean_text] collapses the whitespace runs before
    it removes the characters outside [\x20-\x7E], so removing a character
    that stood between two spaces leaves two spaces, which a second
    [clean_text] collapses.  On "a § b": *)
Theorem clean_text_not_idempotent :
  clean_text section_sign_text = py "a  b" /\
  clean_text (clean_text section_sign_text) = py "a b" /\
  clean_text (clean_text section_sign_text) <> clean_text section_sign_text.
Proof.
  split; [reflexivity|]. split; [reflexivity|]. discriminate.
Qed.

(** ** The retriever: claims *)

(** C1 fails on the code.  With two stored chunks and [top_k = 3] the index
    fills its third slot with the label [-1]; [-1 < len(self.chunks)]
    holds and [self.chunks[-1]] is the last chunk, so [search] returns three
    results, the last chunk twice. *)
Theorem search_top_k_beyond_size :
  ntotal two_vectors = 2%nat /\
  length (Retriever.chunks two_chunk_retriever) = 2%nat /\
  on_results (@length _) three_of_two = Some (Ok 3%nat) /\
  on_results (map (fun r => r !! "chunk_id")) three_of_two
    = Some (Ok [Some (PInt 0); Some (PInt 1); Some (PInt 1)]) /\
  on_results (map (fun r => r !! "text")) three_of_two
    = Some (Ok [Some (PStr (text chunk_a)); Some (PStr (text chunk_b));
                Some (PStr (text chunk_b))]).
Proof. repeat split; vm_compute; reflexivity. Qed.

(** With an index but no chunk, the unfilled slot makes [search] raise:
    [self.chunks[-1]] on an empty list. *)
Example search_no_chunk_raises :
  search 0 demo_env idle
    {| Retriever.country := py "india";
       Retriever.index := Some {| d := 2; xb := [] |};
       Retriever.chunks := [] |}
    (py "student visa work") 3
  = Some (Raise (IndexError "list index out of range")).
Proof. vm_compute. reflexivity. Qed.

(** C2, as the claim states it, fails: when the embedding model fails,
    [self.chunks] has already been replaced by the metadata of the new
    chunks, next to the old index. *)
Lemma build_index_failure_replaces_chunks :
  (snd broken_build = Raise model_error /\
   Retriever.index (fst (fst broken_build)) = Some two_vectors /\
   length (Retriever.chunks (fst (fst broken_build))) = 1%nat /\
   length (Retriever.chunks two_chunk_retriever) = 2%nat) /\
  ~ (forall env self disk self' disk' e,
       Retriever.index self <> None ->
       build_index env (self, disk) = ((self', disk'), Raise e) ->
       Retriever.index self' = Retriever.index self /\
       Retriever.chunks self' = Retriever.chunks self).
Proof.
  assert (H : snd broken_build = Raise model_error /\
   Retriever.index (fst (fst broken_build)) = Some two_vectors /\
   length (Retriever.chunks (fst (fst broken_build))) = 1%nat /\
   length (Retriever.chunks two_chunk_retriever) = 2%nat)
    by (repeat split; vm_compute; reflexivity).
  split; [exact H|]. destruct H as (Hr & _ & H1 & H2).
  intros Hall.
  assert (Hi : Retriever.index two_chunk_retriever <> None) by discriminate.
  assert (Hb : build_index broken_model_env (two_chunk_retriever, empty_disk)
               = ((fst (fst broken_build), snd (fst broken_build)), Raise model_error))
    by exact (run_eta broken_build _ Hr).
  destruct (Hall _ _ _ _ _ _ Hi Hb) as [_ Hc].
  rewrite Hc, H2 in H1. discriminate H1.
Qed.

(** C2, amended: when [build_index] fails while loading or chunking the
    documents, the retriever and the disk are what they were before the
    call; when it fails while embedding or reading the dimension, the index
    and the disk are untouched but [self.chunks] already holds the metadata
    of the new chunks; when it fails while saving, [self.index] and
    [self.chunks] are both the new ones. *)
Theorem build_index_failure (env : Env) (self self' : FAISSRetriever) (disk disk' : Disk)
  (e : exn) :
  build_index env (self, disk) = ((self', disk'), Raise e) ->
  ((load_documents env (Retriever.country self) = Raise e \/
    exists documents,
      load_documents env (Retriever.country self) = Ok documents /\
      process_documents {| chunk_size := 500 |} documents = Raise e) /\
   self' = self /\ disk' = disk)
  \/
  exists documents chunk_objects,
    load_documents env (Retriever.country self) = Ok documents /\
    process_documents {| chunk_size := 500 |} documents = Ok chunk_objects /\
    Retriever.country self' = Retriever.country self /\
    Retriever.chunks self' = map chunk_dict chunk_objects /\
    (((encode_texts env (map text chunk_objects) = Raise e \/
       exists embeddings,
         encode_texts env (map text chunk_objects) = Ok embeddings /\
         shape_1 embeddings = Raise e) /\
      Retriever.index self' = Retriever.index self /\ disk' = disk)
     \/
     exists embeddings dimension,
       encode_texts env (map text chunk_objects) = Ok embeddings /\
       shape_1 embeddings = Ok dimension /\
       Retriever.index self' = Some {| d := dimension; xb := rows embeddings |} /\
       (makedirs_error env = Some e \/ write_index_error env = Some e \/
        pickle_dump_error env = Some e)).
Proof.
  rewrite build_index_eq.
  destruct (load_documents env _) as [documents|e0] eqn:El.
  2: { intros H; inversion H; subst. left. auto. }
  destruct (process_documents _ documents) as [chunk_objects|e0] eqn:Ep.
  2: { intros H; inversion H; subst. left. split; [right; eauto|auto]. }
  simpl. intros H. right. exists documents, chunk_objects.
  split; [reflexivity|]. split; [exact Ep|].
  destruct (encode_texts env _) as [embeddings|e0] eqn:Ee.
  2: { raised_in H. left. auto. }
  destruct (shape_1 embeddings) as [dimension|e0] eqn:Es.
  2: { raised_in H. left. split; [right; eauto|auto]. }
  rewrite save_index_eq in H.
  destruct (makedirs_error env) as [e1|] eqn:E1; [raised_in H; right; eauto 10|].
  destruct (write_index_error env) as [e2|] eqn:E2; [raised_in H; right; eauto 10|].
  destruct (pickle_dump_error env) as [e3|] eqn:E3; [|discriminate].
  raised_in H. right. eauto 10.
Qed.

Lemma build_index_failure_witness :
  build_index broken_model_env (two_chunk_retriever, empty_disk)
    = ((fst (fst broken_build), snd (fst broken_build)), Raise model_error) /\
  exists documents chunk_objects,
    load_documents broken_model_env (Retriever.country two_chunk_retriever) = Ok documents /\
    process_documents {| chunk_size := 500 |} documents = Ok chunk_objects /\
    Retriever.chunks (fst (fst broken_build)) = map chunk_dict chunk_objects /\
    Retriever.index (fst (fst broken_build)) = Retriever.index two_chunk_retriever.
Proof.
  assert (Hr : snd broken_build = Raise model_error) by (vm_compute; reflexivity).
  assert (Hb : build_index broken_model_env (two_chunk_retriever, empty_disk)
               = ((fst (fst broken_build), snd (fst broken_build)), Raise model_error))
    by exact (run_eta broken_build _ Hr).
  split; [exact Hb|].
  destruct (build_index_failure broken_model_env two_chunk_retriever _ empty_disk _
              model_error Hb)
    as [[[Hl|(documents & Hl & Hp)] _]|(documents & chunk_objects & Hl & Hp & _ & Hc & Hrest)].
  - discriminate Hl.
  - inversion Hl; subst documents. vm_compute in Hp. discriminate Hp.
  - exists documents, chunk_objects. repeat (split; [assumption|]).
    destruct Hrest as [(_ & Hi & _)|(embeddings & dimension & He & _)];
      [exact Hi|discriminate He].
Defined.

(** A background load that completes during the fourth wait ends the
    polling after four waits, and [search] returns a result. *)
Example search_after_late_load :
  option_map snd (wait_loop 25 late_load (init (py "india")) 0%float 0) = Some 4%nat /\
  on_results (@length _)
    (search 25 demo_env late_load (init (py "india")) (py "student visa work") 1)
    = Some (Ok 1%nat).
Proof. split; vm_compute; reflexivity. Qed.

(** C3, as the claim states it, fails: what [search] raises when the index
    is still absent is a plain [Exception]; there is no
    [IndexNotReadyError]. *)
Lemma search_no_IndexNotReadyError :
  search 25 demo_env idle (init (py "india")) (py "student visa work") 3
    = Some (Raise (not_loaded (py "india"))) /\
  exn_class (not_loaded (py "india")) = "Exception"%string /\
  ~ (exists e,
       search 25 demo_env idle (init (py "india")) (py "student visa work") 3
         = Some (Raise e) /\
       exn_class e = "IndexNotReadyError"%string).
Proof.
  assert (H : search 25 demo_env idle (init (py "india")) (py "student visa work") 3
              = Some (Raise (not_loaded (py "india")))) by (vm_compute; reflexivity).
  split; [exact H|]. split; [reflexivity|].
  intros (e & He & Hc). rewrite H in He. inversion He; subst e. discriminate Hc.
Qed.

(** C3, amended: on a retriever whose index is absent, [search] polls: it
    makes at most 25 waits of [wait_step = 0.2] seconds, which is when the
    float [waited] is no longer below [max_wait = 5.0]; the loop ends
    (enough fuel gives the outcome of [search]); when the index is still
    absent at the end, all 25 waits were made and [search] raises an
    [Exception] whose message names the country, instead of returning a
    result; when a background load brought the index, [search] goes on with
    it. *)
Theorem search_waits_then_raises (fuel : nat) (env : Env) (bg : nat -> option Disk)
  (self : FAISSRetriever) (query : pystr) (top_k : nat) :
  (max_polls <= fuel)%nat -> Retriever.index self = None ->
  exists self' waited n,
    wait_loop fuel bg self 0%float 0 = Some (self', waited, n) /\
    (n <= max_polls)%nat /\ waited = waited_after n /\
    search fuel env bg self query top_k
      = Some (match Retriever.index self' with
              | None => Raise (not_loaded (Retriever.country self))
              | Some ix => search_index env self' ix query top_k
              end) /\
    (Retriever.index self' = None ->
     n = max_polls /\ PrimFloat.ltb waited max_wait = false).
Proof.
  intros Hf _.
  destruct (wait_loop_from bg max_polls 0%nat fuel self eq_refl Hf)
    as (self' & waited & n & Hw & Hn & Hwa & Hc & Hnone).
  change (waited_after 0) with 0%float in Hw.
  exists self', waited, n. split; [exact Hw|]. split; [lia|]. split; [exact Hwa|].
  split; [|exact Hnone].
  unfold search. rewrite Hw, Hc. destruct (Retriever.index self'); reflexivity.
Qed.

Lemma search_waits_then_raises_witness :
  (max_polls <= 25)%nat /\ Retriever.index (init (py "india")) = None /\
  exists self' waited n,
    wait_loop 25 idle (init (py "india")) 0%float 0 = Some (self', waited, n) /\
    (n <= max_polls)%nat /\ waited = waited_after n /\
    search 25 demo_env idle (init (py "india")) (py "student visa work") 3
      = Some (match Retriever.index self' with
              | None => Raise (not_loaded (Retriever.country (init (py "india"))))
              | Some ix => search_index demo_env self' ix (py "student visa work") 3
              end) /\
    (Retriever.index self' = None ->
     n = max_polls /\ PrimFloat.ltb waited max_wait = false).
Proof.
  split; [apply Nat.le_refl|]. split; [reflexivity|].
  apply (search_waits_then_raises 25 demo_env idle (init (py "india"))
           (py "student visa work") 3); [apply Nat.le_refl|reflexivity].
Defined.

(** C5 fails on the code, by the defect of C1.  With two stored chunks and
    [top_k = 3], the third result is the last chunk again, with the score
    [1 / (1 + FLT_MAX)] of the unfilled slot, although its vector is at
    distance 4/5 of the query, which is the score 5/9 of the second
    result. *)
Theorem search_padded_score :
  on_results (map (fun r => r !! "text")) three_of_two
    = Some (Ok [Some (PStr (text chunk_a)); Some (PStr (text chunk_b));
                Some (PStr (text chunk_b))]) /\
  (fvec_L2sqr [1; 0] [3 # 5; 4 # 5] == 4 # 5)%Q /\
  exists s1 s2 s3,
    on_results (map score) three_of_two = Some (Ok [s1; s2; s3]) /\
    (s1 == 1)%Q /\
    (s2 == / (1 + (4 # 5)))%Q /\
    (s3 == / (1 + FLT_MAX))%Q /\
    ~ (s3 == / (1 + (4 # 5)))%Q.
Proof.
  split; [vm_compute; reflexivity|]. split; [vm_compute; reflexivity|].
  eexists _, _, _. split; [vm_compute; reflexivity|].
  repeat split; try (vm_compute; reflexivity).
  vm_compute. discriminate.
Qed.

(** C10: after a successful [build_index], the metadata on disk and in the
    retriever has exactly the seven keys of the dict literal, and every
    result that [search] returns, on that retriever or on one that loaded
    what was saved, has exactly the keys [text], [title], [section],
    [source_url], [country], [category], [chunk_id], [similarity_score]:
    [total_chunks] is not among them. *)
Theorem search_result_keys (env : Env) (self self' : FAISSRetriever) (disk disk' : Disk) :
  build_index env (self, disk) = ((self', disk'), Ok tt) ->
  metadata_file disk' = Some (Retriever.chunks self') /\
  List.Forall (fun c => dom c = chunk_keys) (Retriever.chunks self') /\
  forall loaded,
    loaded = self' \/ (exists other, loaded = load_index other disk') ->
    forall fuel env' bg query top_k results,
      search fuel env' bg loaded query top_k = Some (Ok results) ->
      List.Forall (fun r => dom r = result_keys /\ r !! "total_chunks" = None) results.
Proof.
  intros H. apply build_index_ok in H as (chunk_objects & ix & Hc & Hi & Hdi & Hdm).
  split; [congruence|]. split; [rewrite Hc; apply Forall_chunk_keys|].
  intros loaded Hl fuel env' bg query top_k results Hs.
  assert (Hlc : Retriever.chunks loaded = map chunk_dict chunk_objects /\
                Retriever.index loaded = Some ix).
  { destruct Hl as [->|[other ->]]; [auto|].
    unfold load_index. rewrite Hdi, Hdm. simpl. auto. }
  destruct Hlc as [Hlc Hli]. unfold search in Hs.
  rewrite wait_loop_loaded in Hs by congruence. rewrite Hli in Hs.
  inversion Hs as [Hs']. apply search_index_keys in Hs'.
  - eapply List.Forall_impl; [|exact Hs']. intros r Hr. split; [exact Hr|].
    apply not_elem_of_dom. rewrite Hr. apply total_chunks_not_result_key.
  - rewrite Hlc. apply Forall_chunk_keys.
Qed.

Lemma search_result_keys_witness :
  build_index demo_env (init (py "india"), empty_disk)
    = ((fst (fst demo_build), snd (fst demo_build)), Ok tt) /\
  match demo_found with
  | Some (Ok results) =>
      length results = 1%nat /\
      List.Forall (fun r => dom r = result_keys /\ r !! "total_chunks" = None) results
  | _ => False
  end.
Proof.
  assert (Hr : snd demo_build = Ok tt) by (vm_compute; reflexivity).
  assert (Hb : build_index demo_env (init (py "india"), empty_disk)
               = ((fst (fst demo_build), snd (fst demo_build)), Ok tt))
    by exact (run_eta demo_build _ Hr).
  split; [exact Hb|].
  assert (Hlen : on_results (@length _) demo_found = Some (Ok 1%nat))
    by (vm_compute; reflexivity).
  destruct demo_found as [[results|e]|] eqn:E; try discriminate Hlen.
  split; [inversion Hlen; reflexivity|].
  exact (proj2 (proj2 (search_result_keys demo_env (init (py "india")) _ empty_disk _ Hb))
           demo_loaded (or_intror (ex_intro _ (init (py "india")) eq_refl))
           0%nat demo_env idle (py "student visa work") 1%nat results E).
Defined.

(** * More of the code *)

(** ** clean_text *)

Lemma lstrip_Forall (P : pychar -> Prop) (s : pystr) :
  List.Forall P s -> List.Forall P (lstrip s).
Proof.
  intros H. destruct (lstrip_suffix s) as [p Hp]. rewrite Hp in H.
  apply List.Forall_app in H. apply H.
Qed.

Lemma strip_Forall (P : pychar -> Prop) (s : pystr) :
  List.Forall P s -> List.Forall P (strip s).
Proof.
  intros H. unfold strip. apply lstrip_Forall in H.
  destruct (rstrip_prefix (lstrip s)) as [p Hp]. rewrite Hp in H.
  apply List.Forall_app in H. apply H.
Qed.

Lemma space_printable (c : pychar) :
  is_space c = true -> is_printable c = true -> c = SPACE.
Proof.
  unfold is_space, is_printable, SPACE. intros Hs Hp.
  apply andb_true_iff in Hp as [H1 H2]. apply N.leb_le in H1, H2.
  repeat (apply orb_true_iff in Hs as [Hs|Hs]);
    repeat (apply andb_true_iff in Hs as [? ?]);
    repeat match goal with
           | H : (_ <=? _)%N = true |- _ => apply N.leb_le in H
           | H : (_ =? _)%N = true |- _ => apply N.eqb_eq in H
           end; lia.
Qed.

Lemma sub_whitespace_tidy (s : pystr) : forall b, tidy b (sub_whitespace b s).
Proof.
  induction s as [|c rest IH]; intros b; simpl; [exact I|].
  destruct (is_space c) eqn:Hc.
  - destruct b; [apply IH|]. simpl. change (is_space SPACE) with true. cbv iota.
    repeat split. apply IH.
  - simpl. rewrite Hc. apply IH.
Qed.

Lemma sub_whitespace_id (s : pystr) : forall b, tidy b s -> sub_whitespace b s = s.
Proof.
  induction s as [|c rest IH]; intros b H; simpl in *; [reflexivity|].
  destruct (is_space c).
  - destruct H as (-> & -> & H). rewrite (IH true H). reflexivity.
  - rewrite (IH false H). reflexivity.
Qed.

Lemma sub_whitespace_printable (s : pystr) :
  plain s -> forall b, List.Forall (fun c => is_printable c = true) (sub_whitespace b s).
Proof.
  induction 1 as [|c rest Hc _ IH]; intros b; simpl; [constructor|].
  destruct (is_space c) eqn:Hs.
  - destruct b; [apply IH|]. constructor; [reflexivity|apply IH].
  - constructor; [|apply IH]. destruct Hc as [Hc|Hc]; congruence.
Qed.

Lemma tidy_lstrip (s : pystr) : forall b, tidy b s -> tidy false (lstrip s).
Proof.
  induction s as [|c rest IH]; intros b H; simpl in *; [exact I|].
  destruct (is_space c) eqn:Hc.
  - destruct H as (_ & _ & H). eapply IH. exact H.
  - simpl. rewrite Hc. exact H.
Qed.

Lemma tidy_prefix (p q : pystr) : forall b, tidy b (p ++ q) -> tidy b p.
Proof.
  induction p as [|c rest IH]; intros b H; simpl in *; [exact I|].
  destruct (is_space c).
  - destruct H as (? & ? & H). repeat split; try assumption. apply IH. exact H.
  - apply IH. exact H.
Qed.

Lemma tidy_strip (s : pystr) (b : bool) : tidy b s -> tidy false (strip s).
Proof.
  intros H. apply tidy_lstrip in H. unfold strip.
  destruct (rstrip_prefix (lstrip s)) as [p Hp]. rewrite Hp in H.
  eapply tidy_prefix. exact H.
Qed.

Lemma clean_text_chars (x : pystr) :
  List.Forall (fun c => is_printable c = true) (clean_text x).
Proof.
  unfold clean_text. apply strip_Forall. unfold sub_non_printable.
  apply List.Forall_forall. intros c Hc. apply List.filter_In in Hc. apply Hc.
Qed.

(** X1: what [clean_text] returns has only characters of [\x20-\x7E] and
    neither starts nor ends with whitespace. *)
Theorem clean_text_printable (x : pystr) :
  List.Forall (fun c => is_printable c = true) (clean_text x) /\ trimmed (clean_text x).
Proof. split; [apply clean_text_chars|apply strip_trimmed]. Qed.

(** A cleaned text of plain characters has no whitespace but single
    spaces. *)
Lemma clean_text_tidy (x : pystr) : plain x -> tidy false (clean_text x).
Proof.
  intros H. unfold clean_text, sub_non_printable.
  rewrite filter_all by (apply sub_whitespace_printable; exact H).
  eapply tidy_strip. apply sub_whitespace_tidy.
Qed.

Lemma clean_text_fixed (y : pystr) :
  List.Forall (fun c => is_printable c = true) y -> tidy false y -> trimmed y ->
  clean_text y = y.
Proof.
  intros Hp Ht Htr. unfold clean_text, sub_non_printable.
  rewrite (sub_whitespace_id y false Ht), (filter_all _ _ Hp).
  apply strip_trimmed_id. exact Htr.
Qed.

Lemma clean_text_plain_fixed (x : pystr) :
  plain x -> clean_text (clean_text x) = clean_text x.
Proof.
  intros H. apply clean_text_fixed.
  - apply clean_text_chars.
  - apply clean_text_tidy. exact H.
  - apply clean_text_trimmed.
Qed.

(** X2: on a text in which every character is whitespace or in
    [\x20-\x7E], [clean_text] is idempotent, and the cleaned text has no
    whitespace but single spaces between other characters. *)
Theorem clean_text_idempotent_plain (x : pystr) :
  plain x ->
  clean_text (clean_text x) = clean_text x /\ tidy false (clean_text x).
Proof.
  intros H. split; [apply clean_text_plain_fixed|apply clean_text_tidy]; exact H.
Qed.

Lemma clean_text_idempotent_plain_witness :
  plain spaced_text /\
  clean_text (clean_text spaced_text) = clean_text spaced_text /\
  clean_text spaced_text = py "a b c.".
Proof.
  assert (H : plain spaced_text).
  { unfold plain, spaced_text. repeat (constructor; [vm_compute; auto|]). constructor. }
  split; [exact H|].
  split; [exact (proj1 (clean_text_idempotent_plain spaced_text H))|].
  vm_compute. reflexivity.
Defined.

(** X3: whatever the text is, cleaning it twice gives a text that
    [clean_text] no longer changes. *)
Theorem clean_text_twice_fixed (x : pystr) :
  clean_text (clean_text (clean_text x)) = clean_text (clean_text x).
Proof.
  apply clean_text_plain_fixed.
  eapply List.Forall_impl; [|apply (clean_text_chars x)].
  intros c Hc. right. exact Hc.
Qed.

(** ** split_into_chunks *)

Lemma lstrip_length (s : pystr) : len (lstrip s) <= len s.
Proof.
  destruct (lstrip_suffix s) as [p Hp]. unfold len. rewrite Hp at 2.
  rewrite length_app. lia.
Qed.

Lemma strip_length (s : pystr) : len (strip s) <= len s.
Proof.
  unfold strip. pose proof (lstrip_length s) as H1.
  destruct (rstrip_prefix (lstrip s)) as [p Hp]. unfold len in *.
  rewrite Hp in H1 at 1. rewrite length_app in H1. lia.
Qed.

Section Packed.

Variable maxSize : Z.

Lemma pack_spec_fits (all : list pystr) (sentences : list pystr) :
  forall current,
    (forall s, In s sentences -> In s all) ->
    current = [] \/ fits_or_alone maxSize all current ->
    List.Forall (fits_or_alone maxSize all) (pack_spec maxSize current sentences).
Proof.
  assert (Hclose : forall current,
            current = [] \/ fits_or_alone maxSize all current ->
            List.Forall (fits_or_alone maxSize all) (close_chunk current)).
  { intros current [->|H]; [constructor|]. unfold close_chunk.
    destruct (truthy current); [|constructor]. constructor; [exact H|constructor]. }
  induction sentences as [|s rest IH]; intros current Hall Hc; simpl.
  - apply Hclose. exact Hc.
  - assert (Hrest : forall s0, In s0 rest -> In s0 all) by (intros; apply Hall; right; assumption).
    destruct (Z.leb_spec (len current + len s + 1) maxSize) as [Hfit|Hno].
    + apply IH; [exact Hrest|]. right. left. unfold join_sentence.
      destruct current as [|c0 r0]; simpl.
      * unfold len in *. simpl in Hfit. lia.
      * unfold len in *. simpl in *. rewrite length_app. simpl. lia.
    + apply List.Forall_app. split; [apply Hclose; exact Hc|].
      apply IH; [exact Hrest|]. right.
      destruct (Z.le_gt_cases (len s) maxSize) as [Hs|Hs]; [left; exact Hs|].
      right. split; [apply Hall; left; reflexivity|exact Hs].
Qed.

End Packed.

(** X4: every chunk fits the chunk size, or is one sentence (stripped) that
    is itself longer than the chunk size. *)
Theorem split_into_chunks_size (self : DocumentProcessor) (text c : pystr) :
  In c (split_into_chunks self text) ->
  len c <= chunk_size self \/
  exists s, In s (re_split_sentences text) /\ chunk_size self < len s /\ c = strip s.
Proof.
  intros Hc. destruct (Z.le_gt_cases (len text) (chunk_size self)) as [H|H].
  - rewrite split_into_chunks_short in Hc by exact H.
    destruct Hc as [<-|[]]. left. exact H.
  - rewrite split_into_chunks_long in Hc by exact H.
    apply in_map_iff in Hc as (c0 & <- & Hc0).
    pose proof (pack_spec_fits (chunk_size self) (re_split_sentences text)
                  (re_split_sentences text) [] (fun s Hs => Hs) (or_introl eq_refl)) as Hall.
    rewrite List.Forall_forall in Hall. destruct (Hall c0 Hc0) as [Hfit|[Hin Hbig]].
    + left. pose proof (strip_length c0). lia.
    + right. exists c0. auto.
Qed.

Lemma split_into_chunks_size_witness :
  In (py "One. Two.") (split_into_chunks twelve four_sentences) /\
  (len (py "One. Two.") <= chunk_size twelve \/
   exists s, In s (re_split_sentences four_sentences) /\ chunk_size twelve < len s /\
             py "One. Two." = strip s).
Proof.
  assert (H : In (py "One. Two.") (split_into_chunks twelve four_sentences))
    by (vm_compute; auto).
  split; [exact H|].
  exact (split_into_chunks_size twelve four_sentences (py "One. Two.") H).
Defined.

Lemma join_space_cons (s : pystr) (rest : list pystr) :
  rest <> [] -> join_space (s :: rest) = s ++ SPACE :: join_space rest.
Proof. destruct rest; [congruence|reflexivity]. Qed.

Lemma join_space_joined (a s : pystr) (rest : list pystr) :
  join_space ((a ++ SPACE :: s) :: rest) = a ++ SPACE :: join_space (s :: rest).
Proof.
  destruct rest as [|r rs]; [reflexivity|].
  rewrite !join_space_cons by discriminate. rewrite <- app_assoc. reflexivity.
Qed.

(** Joining what the packing gives is joining the open chunk and the
    sentences. *)
Lemma join_space_pack (maxSize : Z) (sentences : list pystr) :
  List.Forall (fun s => s <> []) sentences ->
  forall current, current <> [] ->
    join_space (pack_spec maxSize current sentences) = join_space (current :: sentences).
Proof.
  induction 1 as [|s rest Hs _ IH]; intros current Hc; simpl pack_spec.
  - unfold close_chunk. destruct current; [congruence|reflexivity].
  - destruct (len current + len s + 1 <=? maxSize).
    + unfold join_sentence. destruct current as [|c0 r0]; [congruence|].
      cbn [truthy]. rewrite IH by (simpl; discriminate).
      apply join_space_joined.
    + unfold close_chunk. destruct current as [|c0 r0]; [congruence|].
      cbn [truthy]. change ([c0 :: r0] ++ pack_spec maxSize s rest)
        with ((c0 :: r0) :: pack_spec maxSize s rest).
      rewrite join_space_cons by (apply pack_spec_nonempty; exact Hs).
      rewrite IH by exact Hs.
      rewrite (join_space_cons (c0 :: r0) (s :: rest)) by discriminate. reflexivity.
Qed.

(** X5: on a cleaned text longer than the chunk size, chunking loses and
    reorders nothing: the chunks joined by single spaces are the sentences
    joined by single spaces. *)
Theorem split_into_chunks_join (self : DocumentProcessor) (x : pystr) :
  chunk_size self < len (clean_text x) ->
  join_space (split_into_chunks self (clean_text x))
  = join_space (re_split_sentences (clean_text x)).
Proof.
  intros Hlong. set (t := clean_text x) in *.
  assert (Htr : trimmed t) by apply clean_text_trimmed.
  destruct (list_eq_nil_dec t) as [E|Hne].
  { (* an empty text and a negative chunk size: no chunk, one empty sentence *)
    rewrite E in *. unfold split_into_chunks. simpl.
    unfold len in *. simpl in *. change (Z.of_nat 0) with 0 in *.
    destruct (Z.leb_spec 0 (chunk_size self)); [lia|].
    destruct (Z.leb_spec (0 + 0 + 1) (chunk_size self)); reflexivity. }
  rewrite split_into_chunks_long by exact Hlong.
  pose proof (re_split_solid t Hne Htr) as Hsolid.
  pose proof (re_split_last t (proj2 Htr)) as Hlast.
  rewrite map_strip_trimmed.
  2: { apply pack_spec_trimmed; [left; reflexivity|].
       rewrite List.Forall_forall in *. intros s Hs. split; auto. }
  destruct (re_split_sentences t) as [|s rest] eqn:E; [reflexivity|].
  inversion Hsolid as [|? ? [Hs _] Hrest]; subst.
  assert (Hrest' : List.Forall (fun s0 => s0 <> []) rest).
  { eapply List.Forall_impl; [|exact Hrest]. intros a [Ha _]. exact Ha. }
  simpl pack_spec. destruct (len [] + len s + 1 <=? chunk_size self).
  - unfold join_sentence. cbn [truthy]. apply join_space_pack; assumption.
  - unfold close_chunk. cbn [truthy app]. apply join_space_pack; assumption.
Qed.

Lemma split_into_chunks_join_witness :
  chunk_size twelve < len (clean_text four_sentences) /\
  join_space (split_into_chunks twelve (clean_text four_sentences))
  = join_space (re_split_sentences (clean_text four_sentences)).
Proof.
  assert (H : chunk_size twelve < len (clean_text four_sentences))
    by (vm_compute; reflexivity).
  split; [exact H|]. exact (split_into_chunks_join twelve four_sentences H).
Defined.

(** ** process_documents: batches *)

Lemma append_chunks_acc (doc : Doc) (total : nat) (texts : list pystr) :
  forall idx acc,
    append_chunks doc total idx texts acc =
    (cs <- append_chunks doc total idx texts [] ;; Ok (acc ++ cs)).
Proof.
  induction texts as [|txt rest IH]; intros idx acc; simpl.
  - rewrite app_nil_r. reflexivity.
  - destruct (make_chunk doc total idx txt) as [chunk|e]; simpl; [|reflexivity].
    rewrite (IH (S idx) (acc ++ [chunk])), (IH (S idx) [chunk]).
    destruct (append_chunks doc total (S idx) rest []) as [cs|e]; simpl; [|reflexivity].
    rewrite <- app_assoc. reflexivity.
Qed.

Lemma process_loop_acc (self : DocumentProcessor) (docs : list Doc) :
  forall acc,
    process_loop self docs acc =
    (cs <- process_loop self docs [] ;; Ok (acc ++ cs)).
Proof.
  induction docs as [|doc rest IH]; intros acc; simpl.
  - rewrite app_nil_r. reflexivity.
  - destruct (getitem doc "content") as [content|e]; simpl; [|reflexivity].
    rewrite (append_chunks_acc doc _ _ 0%nat acc).
    destruct (append_chunks doc _ 0 _ []) as [cs|e]; simpl; [|reflexivity].
    rewrite (IH (acc ++ cs)), (IH cs).
    destruct (process_loop self rest []) as [cs'|e]; simpl; [|reflexivity].
    rewrite <- app_assoc. reflexivity.
Qed.

(** X6: the chunks of a batch are the chunks of its parts, in order: the
    chunks of a document do not depend on the documents around it, and the
    first part that raises decides the exception. *)
Theorem process_documents_app (self : DocumentProcessor) (docs1 docs2 : list Doc) :
  process_documents self (docs1 ++ docs2) =
  (cs1 <- process_documents self docs1 ;;
   cs2 <- process_documents self docs2 ;;
   Ok (cs1 ++ cs2)).
Proof.
  unfold process_documents. rewrite process_loop_app.
  destruct (process_loop self docs1 []) as [cs1|e]; simpl; [|reflexivity].
  apply process_loop_acc.
Qed.

(** ** get_statistics *)

Lemma fold_count_into (field : string) (key : DocumentChunk -> pystr)
  (chunks : list DocumentChunk) :
  forall stats m,
    stats !! field = Some (SCounts m) ->
    fold_left (fun stats chunk => count_into field (key chunk) stats) chunks stats
    = <[field := SCounts (fold_left count_key (map key chunks) m)]> stats.
Proof.
  induction chunks as [|c rest IH]; intros stats m H; simpl.
  - symmetry. apply insert_id. exact H.
  - unfold count_into at 2. rewrite H.
    rewrite (IH _ (count_key m (key c))) by apply lookup_insert_eq.
    apply insert_insert_eq.
Qed.

Lemma counts_total_count_key (m : gmap pystr Z) (k : pystr) :
  counts_total (count_key m k) = counts_total m + 1.
Proof.
  unfold counts_total, count_key.
  assert (Hcomm : forall z1 z2 y : Z, z1 + (z2 + y) = z2 + (z1 + y)) by (intros; lia).
  destruct (m !! k) as [v|] eqn:E; simpl.
  - rewrite <- insert_delete_eq.
    rewrite map_fold_insert_L; [|intros; apply Hcomm|apply lookup_delete_eq].
    rewrite (map_fold_delete_L _ _ k v m); [lia|intros; apply Hcomm|exact E].
  - rewrite map_fold_insert_L; [lia|intros; apply Hcomm|exact E].
Qed.

Lemma counts_total_fold (keys : list pystr) :
  forall m, counts_total (fold_left count_key keys m) = counts_total m + len keys.
Proof.
  induction keys as [|k rest IH]; intros m; simpl.
  - unfold len. simpl. lia.
  - rewrite IH, counts_total_count_key. unfold len. simpl length. lia.
Qed.

Lemma filter_map_key (key : DocumentChunk -> pystr) (k : pystr) (chunks : list DocumentChunk) :
  len (List.filter (fun k' => bool_decide (k' = k)) (map key chunks)) = count_of key k chunks.
Proof.
  unfold count_of, len. f_equal.
  induction chunks as [|c rest IH]; simpl; [reflexivity|].
  destruct (bool_decide (key c = k)); simpl; rewrite IH; reflexivity.
Qed.

Ltac stats_lookup :=
  repeat (rewrite lookup_insert_ne by discriminate); rewrite lookup_insert_eq.

(** The statistics of a non-empty list, with the two dicts of counts
    named. *)
Lemma get_statistics_eq (self : DocumentProcessor) (first : DocumentChunk)
  (others : list DocumentChunk) :
  let chunks := first :: others in
  exists base,
    get_statistics self chunks
    = <["chunks_by_category" :=
          SCounts (fold_left count_key (map category chunks) ∅)]>
      (<["chunks_by_country" :=
          SCounts (fold_left count_key (map country chunks) ∅)]> base) /\
    base !! "total_chunks" = Some (SInt (len chunks)) /\
    base !! "total_documents" = Some (SInt (Z.of_nat (distinct_titles chunks))) /\
    base !! "avg_chunk_length"
      = Some (SFloat (list_sum (map (fun c => len (text c)) chunks)
                      # Pos.of_nat (length chunks))) /\
    base !! "min_chunk_length"
      = Some (SInt (list_min (len (text first)) (map (fun c => len (text c)) others))) /\
    base !! "max_chunk_length"
      = Some (SInt (list_max (len (text first)) (map (fun c => len (text c)) others))).
Proof.
  intros chunks. eexists. split.
  - unfold get_statistics. subst chunks. cbv beta match zeta.
    set (chunks := first :: others).
    rewrite (fold_count_into "chunks_by_country" country chunks _ ∅)
      by (rewrite lookup_insert_ne by discriminate; apply lookup_insert_eq).
    rewrite (fold_count_into "chunks_by_category" category chunks _ ∅)
      by (rewrite lookup_insert_ne by discriminate; apply lookup_insert_eq).
    reflexivity.
  - rewrite length_map. repeat split; stats_lookup; reflexivity.
Qed.

Lemma fold_count_key_get (keys : list pystr) (k : pystr) :
  forall m,
    fold_left count_key keys m !! k
    = match length (List.filter (fun k' => bool_decide (k' = k)) keys) with
      | O => m !! k
      | S c => Some (default 0 (m !! k) + Z.of_nat (S c))
      end.
Proof.
  induction keys as [|k' rest IH]; intros m; simpl; [reflexivity|].
  rewrite IH. unfold count_key.
  destruct (bool_decide_reflect (k' = k)) as [->|Hne]; simpl length.
  - rewrite lookup_insert_eq.
    destruct (length (List.filter (fun k'0 => bool_decide (k'0 = k)) rest));
      simpl default; f_equal; lia.
  - rewrite lookup_insert_ne by exact Hne. reflexivity.
Qed.

Lemma counts_get (key : DocumentChunk -> pystr) (k : pystr) (chunks : list DocumentChunk) :
  fold_left count_key (map key chunks) ∅ !! k
  = if count_of key k chunks =? 0 then None else Some (count_of key k chunks).
Proof.
  rewrite fold_count_key_get, <- filter_map_key. unfold len.
  destruct (length _) as [|c]; [reflexivity|].
  rewrite lookup_empty. simpl default.
  destruct (Z.eqb_spec (Z.of_nat (S c)) 0); [lia|]. f_equal.
Qed.

(** X7: the statistics of a non-empty list of chunks count every chunk
    once per dict: [chunks_by_country] (and [chunks_by_category]) has a key
    exactly for the countries (categories) that occur, with the number of
    chunks that carry it, and its counts add up to [total_chunks], the
    length of the list.  The statistics of the empty list are the empty
    dict. *)
Theorem get_statistics_counts (self : DocumentProcessor) (first : DocumentChunk)
  (others : list DocumentChunk) :
  get_statistics self [] = ∅ /\
  get_statistics self (first :: others) !! "total_chunks"
    = Some (SInt (len (first :: others))) /\
  exists by_country by_category,
    get_statistics self (first :: others) !! "chunks_by_country" = Some (SCounts by_country) /\
    get_statistics self (first :: others) !! "chunks_by_category"
      = Some (SCounts by_category) /\
    (forall k, by_country !! k =
       if count_of country k (first :: others) =? 0 then None
       else Some (count_of country k (first :: others))) /\
    (forall k, by_category !! k =
       if count_of category k (first :: others) =? 0 then None
       else Some (count_of category k (first :: others))) /\
    counts_total by_country = len (first :: others) /\
    counts_total by_category = len (first :: others).
Proof.
  split; [reflexivity|].
  destruct (get_statistics_eq self first others) as (base & -> & Htotal & _).
  split; [do 2 (rewrite lookup_insert_ne by discriminate); exact Htotal|].
  eexists _, _. split; [stats_lookup; reflexivity|]. split; [apply lookup_insert_eq|].
  split; [intros k; apply counts_get|]. split; [intros k; apply counts_get|].
  split; rewrite counts_total_fold; unfold counts_total, len;
    rewrite map_fold_empty, length_map; lia.
Qed.

Lemma list_min_spec (l : list Z) :
  forall x, list_min x l <= x /\ List.Forall (fun y => list_min x l <= y) l /\
            In (list_min x l) (x :: l).
Proof.
  unfold list_min. induction l as [|y l IH]; intros x; simpl.
  - split; [lia|]. split; [constructor|left; reflexivity].
  - destruct (IH (Z.min x y)) as (H1 & H2 & H3).
    split; [lia|]. split; [constructor; [lia|exact H2]|].
    destruct H3 as [H3|H3]; [|right; right; exact H3].
    rewrite <- H3. destruct (Z.min_spec x y) as [[_ E]|[_ E]]; [left|right; left]; lia.
Qed.

Lemma list_max_spec (l : list Z) :
  forall x, x <= list_max x l /\ List.Forall (fun y => y <= list_max x l) l /\
            In (list_max x l) (x :: l).
Proof.
  unfold list_max. induction l as [|y l IH]; intros x; simpl.
  - split; [lia|]. split; [constructor|left; reflexivity].
  - destruct (IH (Z.max x y)) as (H1 & H2 & H3).
    split; [lia|]. split; [constructor; [lia|exact H2]|].
    destruct H3 as [H3|H3]; [|right; right; exact H3].
    rewrite <- H3. destruct (Z.max_spec x y) as [[_ E]|[_ E]]; [right; left|left]; lia.
Qed.

Lemma list_sum_bounds (lo hi : Z) (l : list Z) :
  List.Forall (fun y => lo <= y <= hi) l ->
  lo * len l <= list_sum l <= hi * len l.
Proof.
  unfold list_sum, len. intros H.
  assert (G : forall a, a + lo * Z.of_nat (length l) <= fold_left Z.add l a
                        <= a + hi * Z.of_nat (length l)).
  { induction H as [|y l Hy _ IH]; intros a; simpl; [lia|].
    specialize (IH (a + y)). lia. }
  specialize (G 0). lia.
Qed.

Lemma distinct_le_length (l : list pystr) :
  (size (list_to_set l : gset pystr) <= length l)%nat.
Proof.
  induction l as [|x l IH]; simpl length.
  - rewrite list_to_set_nil, size_empty. lia.
  - rewrite list_to_set_cons, size_union_alt, size_singleton.
    assert (size (list_to_set l ∖ {[x]} : gset pystr) <= size (list_to_set l : gset pystr))%nat
      by (apply subseteq_size; intros y Hy; apply elem_of_difference in Hy; tauto).
    lia.
Qed.

(** X8: in the statistics of a non-empty list of chunks,
    [min_chunk_length] and [max_chunk_length] are the lengths of two of the
    chunks and bound the length of every chunk, [avg_chunk_length] lies
    between them, and [total_documents], the number of distinct titles, is
    at least 1 and at most [total_chunks]. *)
Theorem get_statistics_lengths (self : DocumentProcessor) (first : DocumentChunk)
  (others : list DocumentChunk) :
  exists lo hi avg docs,
    get_statistics self (first :: others) !! "min_chunk_length" = Some (SInt lo) /\
    get_statistics self (first :: others) !! "max_chunk_length" = Some (SInt hi) /\
    get_statistics self (first :: others) !! "avg_chunk_length" = Some (SFloat avg) /\
    get_statistics self (first :: others) !! "total_documents" = Some (SInt docs) /\
    List.Forall (fun c => lo <= len (text c) <= hi) (first :: others) /\
    (exists c, In c (first :: others) /\ len (text c) = lo) /\
    (exists c, In c (first :: others) /\ len (text c) = hi) /\
    (inject_Z lo <= avg /\ avg <= inject_Z hi)%Q /\
    1 <= docs <= len (first :: others).
Proof.
  destruct (get_statistics_eq self first others)
    as (base & -> & _ & Hdocs & Havg & Hmin & Hmax).
  set (lens := map (fun c => len (text c)) others) in *.
  destruct (list_min_spec lens (len (text first))) as (Hlo1 & Hlo2 & Hlo3).
  destruct (list_max_spec lens (len (text first))) as (Hhi1 & Hhi2 & Hhi3).
  set (lo := list_min (len (text first)) lens) in *.
  set (hi := list_max (len (text first)) lens) in *.
  assert (Hall : List.Forall (fun y => lo <= y <= hi) (len (text first) :: lens)).
  { constructor; [lia|]. rewrite List.Forall_forall in *. intros y Hy.
    specialize (Hlo2 y Hy). specialize (Hhi2 y Hy). lia. }
  assert (Hin : forall z, In z (len (text first) :: lens) ->
                  exists c, In c (first :: others) /\ len (text c) = z).
  { intros z [<-|Hz]; [exists first; split; [left|]; reflexivity|].
    apply in_map_iff in Hz as (c & <- & Hc). exists c. split; [right; exact Hc|reflexivity]. }
  exists lo, hi. eexists _, _.
  split; [do 2 (rewrite lookup_insert_ne by discriminate); exact Hmin|]. split; [do 2 (rewrite lookup_insert_ne by discriminate); exact Hmax|].
  split; [do 2 (rewrite lookup_insert_ne by discriminate); exact Havg|]. split; [do 2 (rewrite lookup_insert_ne by discriminate); exact Hdocs|].
  split.
  { change (first :: others) with ([first] ++ others).
    apply (List.Forall_map (fun c => len (text c)) (fun y => lo <= y <= hi) (first :: others)).
    exact Hall. }
  split; [apply Hin; exact Hlo3|]. split; [apply Hin; exact Hhi3|].
  split.
  - pose proof (list_sum_bounds lo hi _ Hall) as Hsum.
    change (map (fun c => len (text c)) (first :: others)) with (len (text first) :: lens).
    assert (Hn : Z.pos (Pos.of_nat (length (first :: others)))
                 = len (len (text first) :: lens)).
    { unfold len, lens. simpl length. rewrite length_map, <- Pos.of_nat_succ.
      rewrite Zpos_P_of_succ_nat. lia. }
    unfold Qle, inject_Z. cbn [Qnum Qden]. rewrite Hn. lia.
  - unfold distinct_titles. pose proof (distinct_le_length (map title (first :: others))) as Hle.
    rewrite length_map in Hle. unfold len. split; [|lia].
    assert (Hpos : size (list_to_set (map title (first :: others)) : gset pystr) <> 0%nat).
    { apply size_non_empty_iff, (non_empty_inhabited (title first)). simpl map.
      rewrite list_to_set_cons. apply elem_of_union_l, elem_of_singleton. reflexivity. }
    lia.
Qed.

(** ** save_index and load_index *)

(** X9: what [save_index] writes, [load_index] reads back.  When
    [save_index] succeeds on a retriever that has an index, it leaves the
    retriever as it was, and any retriever that then runs [load_index] on
    the files ends with the index and the chunk metadata of the saver, and
    keeps its own country. *)
Theorem save_index_load_index (env : Env) (self self' other : FAISSRetriever)
  (disk disk' : Disk) :
  is_None (Retriever.index self) = false ->
  save_index env (self, disk) = ((self', disk'), Ok tt) ->
  self' = self /\
  Retriever.index (load_index other disk') = Retriever.index self /\
  Retriever.chunks (load_index other disk') = Retriever.chunks self /\
  Retriever.country (load_index other disk') = Retriever.country other.
Proof.
  intros Hi. rewrite save_index_eq.
  destruct (makedirs_error env); [discriminate|].
  destruct (write_index_error env); [discriminate|].
  destruct (pickle_dump_error env); [discriminate|].
  intros H. inversion H; subst. split; [reflexivity|].
  unfold load_index. simpl. destruct (Retriever.index self'); [|discriminate Hi].
  simpl. auto.
Qed.

Lemma save_index_load_index_witness :
  is_None (Retriever.index two_chunk_retriever) = false /\
  save_index demo_env (two_chunk_retriever, empty_disk)
    = ((fst (fst demo_save), snd (fst demo_save)), Ok tt) /\
  Retriever.chunks (load_index (init (py "usa")) (snd (fst demo_save)))
    = Retriever.chunks two_chunk_retriever.
Proof.
  assert (Hr : snd demo_save = Ok tt) by (vm_compute; reflexivity).
  assert (Hs : save_index demo_env (two_chunk_retriever, empty_disk)
               = ((fst (fst demo_save), snd (fst demo_save)), Ok tt))
    by exact (run_eta demo_save _ Hr).
  split; [reflexivity|]. split; [exact Hs|].
  exact (proj1 (proj2 (proj2
    (save_index_load_index demo_env two_chunk_retriever _ (init (py "usa")) empty_disk _
       eq_refl Hs)))).
Defined.

(** X10: a [load_index] that cannot read one of the two files leaves the
    retriever as [__init__] made it, without index and without chunks,
    whatever index and chunks it held before the call. *)
Theorem load_index_missing_file (self : FAISSRetriever) (disk : Disk) :
  is_None (index_file disk) || is_None (metadata_file disk) = true ->
  load_index self disk = init (Retriever.country self).
Proof.
  unfold load_index, init. destruct (index_file disk) as [ix|]; [|reflexivity].
  destruct (metadata_file disk) as [cs|]; [discriminate|reflexivity].
Qed.

Lemma load_index_missing_file_witness :
  is_None (index_file empty_disk) || is_None (metadata_file empty_disk) = true /\
  load_index two_chunk_retriever empty_disk = init (py "india").
Proof.
  split; [reflexivity|].
  exact (load_index_missing_file two_chunk_retriever empty_disk eq_refl).
Defined.

(** X11: a retriever that loads what a successful [build_index] saved
    answers every [search] as the retriever that built the index does, and
    neither of them waits: the outcome is there without any polling. *)
Theorem build_index_load_index_search (env : Env) (self self' : FAISSRetriever)
  (disk disk' : Disk) :
  build_index env (self, disk) = ((self', disk'), Ok tt) ->
  forall other fuel env' bg query top_k,
    search fuel env' bg (load_index other disk') query top_k
      = search 0 env' idle self' query top_k /\
    search 0 env' idle self' query top_k <> None.
Proof.
  intros H other fuel env' bg query top_k.
  apply build_index_ok in H as (chunk_objects & ix & Hc & Hi & Hdi & Hdm).
  assert (Hl : load_index other disk'
               = set_chunks (set_index other (Some ix)) (Retriever.chunks self')).
  { unfold load_index. rewrite Hdi, Hdm, Hc. reflexivity. }
  unfold search. rewrite !wait_loop_loaded by (rewrite ?Hl, ?Hi; discriminate).
  rewrite Hl, Hi. simpl. split; [reflexivity|discriminate].
Qed.

Lemma build_index_load_index_search_witness :
  build_index demo_env (init (py "india"), empty_disk)
    = ((fst (fst demo_build), snd (fst demo_build)), Ok tt) /\
  search 25 demo_env late_load (load_index (init (py "usa")) (snd (fst demo_build)))
    (py "student visa work") 3
  = search 0 demo_env idle (fst (fst demo_build)) (py "student visa work") 3.
Proof.
  assert (Hr : snd demo_build = Ok tt) by (vm_compute; reflexivity).
  assert (Hb : build_index demo_env (init (py "india"), empty_disk)
               = ((fst (fst demo_build), snd (fst demo_build)), Ok tt))
    by exact (run_eta demo_build _ Hr).
  split; [exact Hb|].
  exact (proj1 (build_index_load_index_search demo_env (init (py "india")) _ empty_disk _ Hb
                  (init (py "usa")) 25%nat demo_env late_load (py "student visa work") 3%nat)).
Defined.

(** ** search *)

(** The results of a search are at most [top_k] copies of stored chunks,
    each with a score in (0, 1]. *)
Lemma search_index_copies (env : Env) (self : FAISSRetriever) (ix : IndexFlatL2)
  (query : pystr) (top_k : nat) (results : list ChunkDict) :
  search_index env self ix query top_k = Ok results ->
  (length results <= top_k)%nat /\
  List.Forall (fun r => exists chunk s,
                 In chunk (Retriever.chunks self) /\
                 r = <["similarity_score" := PFloat s]> chunk /\
                 (0 < s /\ s <= 1)%Q) results.
Proof.
  intros H. apply search_index_inv in H as (q & hits & _ & Hh & H).
  apply collect_results_inv in H as (new & -> & Hnew). simpl.
  split.
  - apply Forall2_length in Hnew. rewrite <- Hnew.
    rewrite <- (faiss_search_length ix q top_k hits Hh). apply filter_length_le.
  - assert (Hd : List.Forall (fun h => (0 <= fst h)%Q)
                   (List.filter (fun h => snd h <? len (Retriever.chunks self)) hits)).
    { apply List.Forall_forall. intros h Hi. apply List.filter_In in Hi as [Hi _].
      pose proof (faiss_search_distances ix q top_k hits Hh) as Hall.
      rewrite List.Forall_forall in Hall. apply Hall. exact Hi. }
    clear Hh. induction Hnew as [|h r hs new (chunk & Hg & ->) _ IH]; [constructor|].
    inversion Hd; subst. constructor; [|apply IH; assumption].
    exists chunk, (/ (1 + fst h))%Q. split; [eapply list_getitem_In; exact Hg|].
    split; [reflexivity|]. apply similarity_range. assumption.
Qed.

(** X12: whatever the sizes of the index and of the chunk list are,
    [search] never returns more than [top_k] results, and every result is a
    copy of one of the stored chunks with one more key,
    [similarity_score], whose value is in (0, 1]. *)
Theorem search_at_most_top_k (env : Env) (self : FAISSRetriever) (ix : IndexFlatL2)
  (query : pystr) (top_k : nat) (results : list ChunkDict) :
  search_index env self ix query top_k = Ok results ->
  (length results <= top_k)%nat /\
  List.Forall (fun r => exists chunk s,
                 In chunk (Retriever.chunks self) /\
                 r = <["similarity_score" := PFloat s]> chunk /\
                 (0 < s /\ s <= 1)%Q) results.
Proof. apply search_index_copies. Qed.

Lemma search_at_most_top_k_witness :
  match three_found with
  | Ok results =>
      length results = 3%nat /\
      List.Forall (fun r => exists chunk s,
                     In chunk [chunk_dict chunk_a; chunk_dict chunk_b] /\
                     r = <["similarity_score" := PFloat s]> chunk /\
                     (0 < s /\ s <= 1)%Q) results
  | Raise _ => False
  end.
Proof.
  assert (Hlen : measure (@length _) three_found = 3%nat) by (vm_compute; reflexivity).
  destruct three_found as [results|e] eqn:E; [|discriminate Hlen].
  split; [exact Hlen|].
  exact (proj2 (search_at_most_top_k demo_env two_chunk_retriever two_vectors
                  (py "student visa work") 3%nat results E)).
Defined.

(** With no chunk, a label that is a position fails the guard and the
    label [-1] of an unfilled slot raises. *)
Lemma collect_results_no_chunk (hits : list (Q * Z)) :
  List.Forall (fun h => 0 <= snd h) hits ->
  forall n acc,
    collect_results [] (hits ++ replicate n (FLT_MAX, -1)) acc
    = match n with
      | O => Ok acc
      | S _ => Raise (IndexError "list index out of range")
      end.
Proof.
  induction 1 as [|[distance idx] rest Hh _ IH]; intros n acc.
  - destruct n as [|n]; reflexivity.
  - cbn [app collect_results]. simpl in Hh.
    destruct (Z.ltb_spec idx (len (@nil ChunkDict))) as [Hlt|_];
      [unfold len in Hlt; simpl in Hlt; lia|].
    apply IH.
Qed.

(** X13: [search] waits for the index only, not for the chunks.  On a
    retriever that has an index and an empty chunk list (what [load_index]
    leaves between its two assignments, and what it loads from an empty
    metadata file), [search], for a positive [top_k] and a query of the
    dimension of the index, does not poll and returns no chunk: it returns
    the empty list when the index has [top_k] candidates, and otherwise the
    unfilled slot raises [IndexError] on [self.chunks[-1]]; that is so
    whenever [top_k] exceeds the size of the index. *)
Theorem search_index_without_chunks (fuel : nat) (env : Env) (bg : nat -> option Disk)
  (self : FAISSRetriever) (ix : IndexFlatL2) (query : pystr) (q : vector) (top_k : nat) :
  Retriever.index self = Some ix -> Retriever.chunks self = [] ->
  encode_single env query = Ok q -> length q = d ix -> (0 < top_k)%nat ->
  search fuel env bg self query top_k
    = Some (if (top_k <=? length (near_hits ix q))%nat then Ok []
            else Raise (IndexError "list index out of range")) /\
  ((ntotal ix < top_k)%nat ->
   search fuel env bg self query top_k
     = Some (Raise (IndexError "list index out of range"))).
Proof.
  intros Hi Hc Hq Hd Hk.
  assert (Hs : search fuel env bg self query top_k
               = Some (if (top_k <=? length (near_hits ix q))%nat then Ok []
                       else Raise (IndexError "list index out of range"))).
  { unfold search. rewrite wait_loop_loaded by (rewrite Hi; discriminate). rewrite Hi.
    unfold search_index. rewrite Hq. cbn [bind].
    rewrite (faiss_search_run ix q top_k Hd Hk). cbn [bind]. rewrite Hc.
    rewrite collect_results_no_chunk.
    2: { apply Forall_take, sort_hits_Forall.
         eapply List.Forall_impl; [|apply near_hits_spec].
         intros h (i & x & Hl & _). lia. }
    rewrite length_take, sort_hits_length.
    destruct (Nat.leb_spec top_k (length (near_hits ix q))) as [Hle|Hgt].
    - replace (top_k - top_k `min` length (near_hits ix q))%nat with 0%nat by lia.
      reflexivity.
    - destruct (top_k - top_k `min` length (near_hits ix q))%nat as [|n] eqn:En; [lia|].
      reflexivity. }
  split; [exact Hs|]. intros Hbig. rewrite Hs.
  pose proof (near_hits_length ix q) as Hn.
  destruct (Nat.leb_spec top_k (length (near_hits ix q))); [lia|reflexivity].
Qed.

Lemma search_index_without_chunks_witness :
  Retriever.index index_only = Some two_vectors /\ Retriever.chunks index_only = [] /\
  search 25 demo_env late_load index_only (py "student visa work") 2 = Some (Ok []) /\
  search 25 demo_env late_load index_only (py "student visa work") 3
    = Some (Raise (IndexError "list index out of range")).
Proof.
  split; [reflexivity|]. split; [reflexivity|]. split.
  - exact (proj1 (search_index_without_chunks 25 demo_env late_load index_only two_vectors
                    (py "student visa work") [1%Q; 0%Q] 2 eq_refl eq_refl eq_refl eq_refl
                    (Nat.lt_0_succ 1))).
  - refine (proj2 (search_index_without_chunks 25 demo_env late_load index_only two_vectors
                     (py "student visa work") [1%Q; 0%Q] 3 eq_refl eq_refl eq_refl eq_refl
                     (Nat.lt_0_succ 2)) _).
    unfold ntotal. simpl. lia.
Defined.

(** ** process_documents, then get_statistics *)

Lemma doc_group_nonempty (self : DocumentProcessor) (doc : Doc) (g : list DocumentChunk) :
  0 <= chunk_size self -> doc_group self doc g -> g <> [].
Proof.
  intros H0 (content & _ & Htx & _) ->. simpl in Htx. symmetry in Htx. revert Htx.
  apply split_into_chunks_nonempty. exact H0.
Qed.

Lemma doc_group_title (self : DocumentProcessor) (doc : Doc) (g : list DocumentChunk) :
  doc_group self doc g -> exists t, List.Forall (fun c => title c = t) g.
Proof.
  intros (content & _ & _ & _ & Hall).
  destruct (doc !! "title") as [t|] eqn:Et.
  - exists t. eapply List.Forall_impl; [|exact Hall]. intros c (Hc & _). congruence.
  - exists []. eapply List.Forall_impl; [|exact Hall]. intros c (Hc & _). congruence.
Qed.

Lemma size_union_le (X Y : gset pystr) : (size (X ∪ Y) <= size X + size Y)%nat.
Proof.
  rewrite size_union_alt.
  assert (size (Y ∖ X) <= size Y)%nat
    by (apply subseteq_size; intros y Hy; apply elem_of_difference in Hy; tauto).
  lia.
Qed.

Lemma one_title (g : list DocumentChunk) (t : pystr) :
  List.Forall (fun c => title c = t) g ->
  (size (list_to_set (map title g) : gset pystr) <= 1)%nat.
Proof.
  intros H. rewrite <- (size_singleton (C := gset pystr) t). apply subseteq_size.
  intros x Hx. apply elem_of_list_to_set, list_elem_of_In, in_map_iff in Hx as (c & <- & Hc).
  rewrite List.Forall_forall in H. apply elem_of_singleton. apply H. exact Hc.
Qed.

(** Every document gives at least one chunk, and at most one title. *)
Lemma process_documents_lengths (self : DocumentProcessor) (docs : list Doc)
  (chunks : list DocumentChunk) :
  0 <= chunk_size self -> process_documents self docs = Ok chunks ->
  (length docs <= length chunks)%nat /\ (distinct_titles chunks <= length docs)%nat.
Proof.
  intros H0 H. apply process_loop_inv in H as (groups & -> & Hg). simpl.
  unfold distinct_titles. induction Hg as [|doc g docs groups Hd _ IH]; cbn [concat length].
  - cbn [map]. rewrite list_to_set_nil, size_empty. lia.
  - rewrite length_app, map_app, list_to_set_app_L.
    pose proof (doc_group_nonempty self doc g H0 Hd) as Hne.
    destruct (doc_group_title self doc g Hd) as [t Ht].
    pose proof (one_title g t Ht) as H1.
    pose proof (size_union_le (list_to_set (map title g)) (list_to_set (map title (concat groups)))).
    assert (1 <= length g)%nat by (destruct g; [congruence|simpl; lia]).
    lia.
Qed.

(** X14: the statistics of what [process_documents] returns for a
    non-empty batch, with a non-negative chunk size: [total_documents] is at
    least 1 and at most the number of documents (documents with the same
    title count once), which is at most [total_chunks]: every document gives
    at least one chunk. *)
Theorem process_documents_statistics (self : DocumentProcessor) (docs : list Doc)
  (chunks : list DocumentChunk) :
  0 <= chunk_size self -> docs <> [] -> process_documents self docs = Ok chunks ->
  exists n m,
    get_statistics self chunks !! "total_documents" = Some (SInt n) /\
    get_statistics self chunks !! "total_chunks" = Some (SInt m) /\
    1 <= n <= len docs /\ len docs <= m.
Proof.
  intros H0 Hne H. destruct (process_documents_lengths self docs chunks H0 H) as [Hlen Htitles].
  destruct chunks as [|first others].
  { destruct docs; [congruence|simpl in Hlen; lia]. }
  destruct (get_statistics_eq self first others) as (base & -> & Htotal & Hdocs & _).
  exists (Z.of_nat (distinct_titles (first :: others))), (len (first :: others)).
  split; [do 2 (rewrite lookup_insert_ne by discriminate); exact Hdocs|].
  split; [do 2 (rewrite lookup_insert_ne by discriminate); exact Htotal|].
  assert (Hpos : distinct_titles (first :: others) <> 0%nat).
  { unfold distinct_titles. apply size_non_empty_iff, (non_empty_inhabited (title first)).
    simpl map. rewrite list_to_set_cons. apply elem_of_union_l, elem_of_singleton. reflexivity. }
  unfold len. lia.
Qed.

Lemma process_documents_statistics_witness :
  0 <= chunk_size twelve /\ [visa_doc; blank_doc] <> [] /\
  exists chunks n m,
    process_documents twelve [visa_doc; blank_doc] = Ok chunks /\
    get_statistics twelve chunks !! "total_documents" = Some (SInt n) /\
    get_statistics twelve chunks !! "total_chunks" = Some (SInt m) /\
    1 <= n <= 2 /\ 2 <= m.
Proof.
  assert (H0 : 0 <= chunk_size twelve) by (simpl; lia).
  assert (Hne : [visa_doc; blank_doc] <> []) by discriminate.
  split; [exact H0|]. split; [exact Hne|].
  destruct (process_documents twelve [visa_doc; blank_doc]) as [chunks|e] eqn:E;
    [|vm_compute in E; discriminate E].
  destruct (process_documents_statistics twelve [visa_doc; blank_doc] chunks H0 Hne E)
    as (n & m & Hn & Hm & Hle).
  exists chunks, n, m. split; [reflexivity|]. split; [exact Hn|]. split; [exact Hm|].
  exact Hle.
Defined.

(** ** build_index, then search and get_stats *)








(** ** The cache of retrievers *)

Lemma get_embedding_model_cache (reg : Registry) :
  retriever_cache (fst (get_embedding_model reg)) = retriever_cache reg /\
  submitted (fst (get_embedding_model reg)) = submitted reg.
Proof.
  unfold get_embedding_model. destruct (model_loaded reg); [auto|].
  destruct (model_loads reg) as [|[e|] later]; auto.
Qed.

(** The constructor does not touch the cache; it hands at most its own
    [load_index] to the executor, and only when both files are there. *)
Lemma FAISSRetriever_init_cache (host : Host) (ctry : pystr) (reg : Registry) :
  retriever_cache (fst (FAISSRetriever_init host ctry reg)) = retriever_cache reg /\
  submitted (fst (FAISSRetriever_init host ctry reg))
  = submitted reg ++
    match snd (FAISSRetriever_init host ctry reg) with
    | Ok _ => if has_files host ctry && executor_up host then [ctry] else []
    | Raise _ => []
    end.
Proof.
  unfold FAISSRetriever_init, has_files.
  destruct (get_embedding_model_cache reg) as [Hc Hs].
  destruct (get_embedding_model reg) as [reg1 [[]|e]]; simpl in *.
  - destruct (negb (is_None (index_file (files host ctry)))
              && negb (is_None (metadata_file (files host ctry)))); simpl.
    + destruct (executor_up host); simpl; rewrite ?app_nil_r, ?Hs; auto.
    + rewrite app_nil_r. auto.
  - rewrite app_nil_r. auto.
Qed.

Lemma cache_new_cache (host : Host) (ctry : pystr) (reg : Registry) :
  retriever_cache (fst (cache_new host ctry reg))
  = match snd (cache_new host ctry reg) with
    | Ok self => <[ctry := self]> (retriever_cache reg)
    | Raise _ => retriever_cache reg
    end /\
  submitted (fst (cache_new host ctry reg))
  = submitted reg ++
    match snd (cache_new host ctry reg) with
    | Ok _ => if has_files host ctry && executor_up host then [ctry] else []
    | Raise _ => []
    end.
Proof.
  unfold cache_new. destruct (FAISSRetriever_init_cache host ctry reg) as [Hc Hs].
  destruct (FAISSRetriever_init host ctry reg) as [reg1 [self|e]]; simpl in *;
    rewrite Hc; auto.
Qed.

(** X18: [get_retriever] caches.  After a call that returned a retriever
    for a country, the cache holds that retriever under the country, the
    entries of the other countries are what they were, and every further
    call for the country returns the same retriever and changes nothing:
    no second retriever is made and no second load is scheduled. *)
Theorem get_retriever_cached (host : Host) (ctry : pystr) (reg reg' : Registry)
  (self : FAISSRetriever) :
  get_retriever host ctry reg = (reg', Ok self) ->
  retriever_cache reg' !! ctry = Some self /\
  (forall other, other <> ctry ->
     retriever_cache reg' !! other = retriever_cache reg !! other) /\
  forall host', get_retriever host' ctry reg' = (reg', Ok self).
Proof.
  unfold get_retriever. destruct (retriever_cache reg !! ctry) as [r|] eqn:E.
  - intros H. inversion H; subst. rewrite E. auto.
  - intros H. destruct (cache_new_cache host ctry reg) as [Hc _].
    rewrite H in Hc. simpl in Hc. rewrite Hc.
    rewrite lookup_insert_eq. split; [reflexivity|].
    split; [intros other Ho; apply lookup_insert_ne; congruence|reflexivity].
Qed.

Lemma get_retriever_cached_witness :
  get_retriever demo_host (py "india") fresh_registry = (fst demo_get, Ok (init (py "india"))) /\
  get_retriever demo_host (py "india") (fst demo_get) = (fst demo_get, Ok (init (py "india"))) /\
  submitted (fst demo_get) = [py "india"].
Proof.
  assert (Hr : snd demo_get = Ok (init (py "india"))) by (vm_compute; reflexivity).
  assert (Hg : get_retriever demo_host (py "india") fresh_registry
               = (fst demo_get, Ok (init (py "india")))).
  { rewrite <- Hr. unfold demo_get. apply surjective_pairing. }
  split; [exact Hg|].
  split; [|vm_compute; reflexivity].
  exact (proj2 (proj2 (get_retriever_cached demo_host (py "india") fresh_registry _ _ Hg))
           demo_host).
Defined.

(** What the loop of [preload_retrievers] does to the cache and to the
    executor, whether it ends or raises. *)
Lemma preload_loop_inv (host : Host) (countries : list pystr) :
  forall reg,
    let reg' := fst (preload_loop host countries reg) in
    (forall ctry self, retriever_cache reg !! ctry = Some self ->
                       retriever_cache reg' !! ctry = Some self) /\
    (forall ctry, is_Some (retriever_cache reg' !! ctry) ->
                  is_Some (retriever_cache reg !! ctry) \/ In ctry countries) /\
    (snd (preload_loop host countries reg) = Ok tt ->
     forall ctry, In ctry countries -> is_Some (retriever_cache reg' !! ctry)) /\
    exists new,
      submitted reg' = submitted reg ++ new /\ NoDup new /\
      List.Forall (fun ctry => retriever_cache reg !! ctry = None /\
                               is_Some (retriever_cache reg' !! ctry) /\
                               In ctry countries /\
                               has_files host ctry = true /\ executor_up host = true) new.
Proof.
  induction countries as [|ctry rest IH]; intros reg; cbn [preload_loop].
  - cbn [fst snd]. split; [auto|]. split; [auto|]. split; [intros _ c []|].
    exists []. rewrite app_nil_r. split; [reflexivity|]. split; constructor.
  - destruct (retriever_cache reg !! ctry) as [r|] eqn:E.
    + destruct (IH reg) as (Hkeep & Hdom & Hall & new & Hs & Hnd & Hnew).
      split; [exact Hkeep|].
      split; [intros c Hc; destruct (Hdom c Hc); [left|right; right]; assumption|].
      split.
      { intros Hok c [<-|Hc]; [|apply Hall; assumption].
        exists r. apply Hkeep. exact E. }
      exists new. split; [exact Hs|]. split; [exact Hnd|].
      eapply List.Forall_impl; [|exact Hnew].
      intros c (? & ? & ? & ? & ?). repeat split; try assumption. right. assumption.
    + destruct (cache_new_cache host ctry reg) as [Hc Hsub].
      destruct (cache_new host ctry reg) as [reg1 [self|e]]; cbn [fst snd] in *.
      * destruct (IH reg1) as (Hkeep & Hdom & Hall & new & Hs & Hnd & Hnew).
        assert (Hin1 : retriever_cache reg1 !! ctry = Some self)
          by (rewrite Hc; apply lookup_insert_eq).
        split.
        { intros c r Hr. apply Hkeep. rewrite Hc.
          rewrite lookup_insert_ne; [exact Hr|]. intros <-. congruence. }
        split.
        { intros c Hcc. destruct (Hdom c Hcc) as [H1|H1]; [|right; right; exact H1].
          rewrite Hc in H1. destruct (decide (ctry = c)) as [<-|Hne]; [right; left; reflexivity|].
          rewrite lookup_insert_ne in H1 by exact Hne. left. exact H1. }
        split.
        { intros Hok c [<-|Hcc]; [|apply Hall; assumption].
          exists self. apply Hkeep. exact Hin1. }
        assert (Hnew' : List.Forall (fun c => retriever_cache reg !! c = None /\
                  is_Some (retriever_cache (fst (preload_loop host rest reg1)) !! c) /\
                  In c (ctry :: rest) /\
                  has_files host c = true /\ executor_up host = true) new).
        { eapply List.Forall_impl; [|exact Hnew].
          intros c (Hn & ? & ? & ? & ?). repeat split; try assumption; [|right; assumption].
          rewrite Hc in Hn. destruct (decide (ctry = c)) as [<-|Hne].
          - rewrite lookup_insert_eq in Hn. discriminate.
          - rewrite lookup_insert_ne in Hn by exact Hne. exact Hn. }
        assert (Hfresh : ~ In ctry new).
        { intros Hi. rewrite List.Forall_forall in Hnew.
          destruct (Hnew ctry Hi) as (Hn & _). congruence. }
        destruct (has_files host ctry && executor_up host) eqn:Ef.
        -- exists (ctry :: new). rewrite Hs, Hsub, <- app_assoc.
           split; [reflexivity|].
           split; [constructor; [rewrite list_elem_of_In; exact Hfresh|exact Hnd]|].
           constructor; [|exact Hnew'].
           apply andb_true_iff in Ef as [Ef1 Ef2].
           split; [exact E|]. split; [exists self; apply Hkeep; exact Hin1|].
           split; [left; reflexivity|]. split; assumption.
        -- exists new. rewrite Hs, Hsub, app_nil_r. auto.
      * split; [intros c r Hr; rewrite Hc; exact Hr|].
        split; [intros c Hcc; left; rewrite <- Hc; exact Hcc|].
        split; [discriminate|].
        exists []. rewrite Hsub. split; [reflexivity|]. split; constructor.
Qed.

Lemma preload_retrievers_fst (host : Host) (countries : option (list pystr))
  (reg : Registry) :
  fst (preload_retrievers host countries reg)
  = fst (preload_loop host
           (match countries with
            | None => [py "india"; py "canada"; py "usa"]
            | Some countries => countries
            end) reg).
Proof.
  unfold preload_retrievers. destruct (preload_loop host _ reg) as [reg1 [[]|e]]; reflexivity.
Qed.

(** X19: [preload_retrievers] only adds.  When it returns, what it
    returns is the cache; the cache holds a retriever for every country of
    the list (or of india, canada and usa when no list is given) and for no
    country that was neither there nor listed; a retriever that was in the
    cache before is still there, the same one; and [get_retriever] then
    serves every listed country from the cache, changing nothing. *)
Theorem preload_retrievers_adds (host : Host) (countries : list pystr)
  (reg reg' : Registry) (cache : gmap pystr FAISSRetriever) :
  preload_retrievers host (Some countries) reg = (reg', Ok cache) ->
  cache = retriever_cache reg' /\
  preload_retrievers host None reg
    = preload_retrievers host (Some [py "india"; py "canada"; py "usa"]) reg /\
  dom cache = dom (retriever_cache reg) ∪ list_to_set countries /\
  (forall ctry self, retriever_cache reg !! ctry = Some self -> cache !! ctry = Some self) /\
  forall ctry, In ctry countries ->
    exists self, cache !! ctry = Some self /\
                 forall host', get_retriever host' ctry reg' = (reg', Ok self).
Proof.
  intros H. pose proof (preload_retrievers_fst host (Some countries) reg) as Hf.
  unfold preload_retrievers in H.
  destruct (preload_loop_inv host countries reg) as (Hkeep & Hdom & Hall & _).
  destruct (preload_loop host countries reg) as [reg1 [[]|e]] eqn:E; [|discriminate].
  inversion H; subst. cbn [fst snd] in *.
  split; [reflexivity|]. split; [reflexivity|].
  split.
  { apply set_eq. intros c. rewrite elem_of_union, !elem_of_dom, elem_of_list_to_set.
    rewrite list_elem_of_In. split.
    - apply Hdom.
    - intros [[r Hr]|Hc]; [exists r; apply Hkeep; exact Hr|apply Hall; [reflexivity|exact Hc]]. }
  split; [exact Hkeep|].
  intros c Hc. destruct (Hall eq_refl c Hc) as [self Hs]. exists self.
  split; [exact Hs|]. intros host'. unfold get_retriever. rewrite Hs. reflexivity.
Qed.

Lemma preload_retrievers_adds_witness :
  preload_retrievers demo_host (Some [py "india"; py "canada"; py "usa"]) (fst demo_get)
    = (fst demo_preload, Ok (retriever_cache (fst demo_preload))) /\
  retriever_cache (fst demo_preload) !! py "india" = Some (init (py "india")) /\
  dom (retriever_cache (fst demo_preload))
    = dom (retriever_cache (fst demo_get)) ∪ list_to_set [py "india"; py "canada"; py "usa"].
Proof.
  assert (Hp : preload_retrievers demo_host (Some [py "india"; py "canada"; py "usa"])
                 (fst demo_get)
               = (fst demo_preload, Ok (retriever_cache (fst demo_preload)))).
  { change (preload_retrievers demo_host (Some [py "india"; py "canada"; py "usa"])
              (fst demo_get)) with demo_preload.
    assert (Hm : measure (fun _ => 1%nat) (snd demo_preload) = 1%nat)
      by (vm_compute; reflexivity).
    pose proof (preload_retrievers_fst demo_host None (fst demo_get)) as Hf.
    unfold demo_preload in *. unfold preload_retrievers in *.
    destruct (preload_loop demo_host _ (fst demo_get)) as [reg1 [[]|e]];
      [reflexivity|discriminate Hm]. }
  split; [exact Hp|].
  destruct (preload_retrievers_adds demo_host _ (fst demo_get) _ _ Hp)
    as (_ & _ & Hdom & Hkeep & _).
  split; [apply Hkeep; vm_compute; reflexivity|exact Hdom].
Defined.

(** X20: [preload_retrievers] schedules at most one load per country.
    Whether it returns or raises, the loads it hands to the executor are
    loads of distinct countries, each of them listed, absent from the cache
    before the call and in it afterwards, with both of its files on disk;
    a retriever that was in the cache before the call is kept. *)
Theorem preload_retrievers_submits_once (host : Host) (countries : list pystr)
  (reg : Registry) :
  exists new,
    submitted (fst (preload_retrievers host (Some countries) reg)) = submitted reg ++ new /\
    NoDup new /\
    List.Forall
      (fun ctry =>
         retriever_cache reg !! ctry = None /\
         is_Some (retriever_cache (fst (preload_retrievers host (Some countries) reg))
                    !! ctry) /\
         In ctry countries /\ has_files host ctry = true /\ executor_up host = true) new.
Proof.
  rewrite preload_retrievers_fst.
  destruct (preload_loop_inv host countries reg) as (_ & _ & _ & Hnew). exact Hnew.
Qed.

(** ** routers/chat.py: the sources of an answer *)

Lemma SourceDocument_new_title (to_float : pyval -> option Q) (ttl : pyval)
  (sec link relevance : option pyval) (source : SourceDocument) :
  SourceDocument_new to_float ttl sec link relevance = Ok source ->
  ttl = PStr (Source.title source).
Proof.
  unfold SourceDocument_new.
  destruct ttl; try discriminate.
  destruct sec as [[]|]; try discriminate;
    destruct link as [[]|]; try discriminate;
    destruct relevance as [v|]; try (destruct v);
    try (destruct (to_float _)); try discriminate;
    intros H; inversion H; reflexivity.
Qed.

Lemma py_eq_str (s t : pystr) : py_eq (PStr s) (PStr t) = bool_decide (s = t).
Proof. reflexivity. Qed.

(** The loop keeps the titles of [sources] distinct, by the titles it has
    [seen]. *)
Lemma format_loop_inv (to_float : pyval -> option Q) (chunks : list ChunkDict) :
  forall sources seen result,
    (forall t, existsb (py_eq (PStr t)) seen = true <-> In t (map Source.title sources)) ->
    NoDup (map Source.title sources) ->
    format_loop to_float chunks sources seen = Ok result ->
    exists new,
      result = sources ++ new /\ NoDup (map Source.title result) /\
      (length new <= length chunks)%nat /\
      List.Forall (fun s => exists chunk, In chunk chunks /\ source_of to_float chunk s) new.
Proof.
  induction chunks as [|chunk rest IH]; intros sources seen result Hseen Hnd H;
    cbn [format_loop] in H.
  - inversion H; subst. exists []. rewrite app_nil_r.
    split; [reflexivity|]. split; [exact Hnd|]. split; [simpl; lia|constructor].
  - destruct (existsb _ seen) eqn:Ex.
    + destruct (IH _ _ _ Hseen Hnd H) as (new & -> & Hnd' & Hlen & Hall).
      exists new. split; [reflexivity|]. split; [exact Hnd'|]. split; [simpl; lia|].
      eapply List.Forall_impl; [|exact Hall].
      intros s (c & Hc & Hs). exists c. split; [right; exact Hc|exact Hs].
    + destruct (SourceDocument_new _ _ _ _ _) as [source|e] eqn:Es; [|discriminate].
      cbn [bind] in H. pose proof (SourceDocument_new_title _ _ _ _ _ _ Es) as Ht.
      rewrite Ht in Ex, H.
      assert (Hfresh : ~ In (Source.title source) (map Source.title sources)).
      { intros Hi. apply Hseen in Hi. congruence. }
      apply IH in H as (new & -> & Hnd' & Hlen & Hall).
      * exists (source :: new). rewrite <- app_assoc. split; [reflexivity|].
        split; [rewrite <- app_assoc in Hnd'; exact Hnd'|]. split; [simpl; lia|].
        constructor.
        -- exists chunk. split; [left; reflexivity|exact Es].
        -- eapply List.Forall_impl; [|exact Hall].
           intros s (c & Hc & Hs). exists c. split; [right; exact Hc|exact Hs].
      * intros t. cbn [existsb]. rewrite py_eq_str, map_app, in_app_iff, orb_true_iff.
        rewrite Hseen, bool_decide_eq_true. simpl. intuition congruence.
      * rewrite map_app. apply NoDup_app. split; [exact Hnd|].
        split; [|apply NoDup_singleton].
        intros t Ht1 Ht2. apply list_elem_of_singleton in Ht2. subst t.
        apply Hfresh. apply list_elem_of_In. exact Ht1.
Qed.

(** X21: [_format_sources] returns at most three sources, with pairwise
    distinct titles, each of them built from one of the first three chunks
    it was given (a chunk without title counts as "Unknown"); a chunk whose
    title was seen is skipped, so a document appears once however many of
    its chunks were retrieved. *)
Theorem format_sources_distinct {A} (to_float : pyval -> option Q)
  (retrieved_chunks : list ChunkDict) (llm_sources : list A)
  (sources : list SourceDocument) :
  _format_sources to_float retrieved_chunks llm_sources = Ok sources ->
  (length sources <= 3)%nat /\ NoDup (map Source.title sources) /\
  List.Forall (fun s => exists chunk,
                 In chunk (take 3 retrieved_chunks) /\ source_of to_float chunk s) sources.
Proof.
  unfold _format_sources. intros H.
  apply format_loop_inv in H as (new & -> & Hnd & Hlen & Hall).
  - simpl in *. rewrite length_take in Hlen. split; [lia|]. split; [exact Hnd|exact Hall].
  - intros t. simpl. split; [discriminate|tauto].
  - constructor.
Qed.

Lemma format_sources_distinct_witness :
  match three_found with
  | Ok results =>
      match _format_sources int_to_float results (@nil pystr) with
      | Ok sources =>
          length results = 3%nat /\ length sources = 1%nat /\
          NoDup (map Source.title sources)
      | Raise _ => False
      end
  | Raise _ => False
  end.
Proof.
  assert (Hm : measure (@length _) demo_sources = 1%nat) by (vm_compute; reflexivity).
  assert (Hlen : measure (@length _) three_found = 3%nat) by (vm_compute; reflexivity).
  unfold demo_sources in Hm.
  destruct three_found as [results|e]; [|discriminate Hlen].
  destruct (_format_sources int_to_float results []) as [sources|e] eqn:E;
    [|discriminate Hm].
  split; [exact Hlen|]. split; [exact Hm|].
  exact (proj1 (proj2 (format_sources_distinct int_to_float results [] sources E))).
Defined.

Lemma source_of_found (to_float : pyval -> option Q) (c : DocumentChunk) (q : Q) :
  source_of to_float (<["similarity_score" := PFloat q]> (chunk_dict c)) (source_of_chunk c q).
Proof.
  unfold source_of, dict_get, chunk_dict.
  rewrite lookup_insert_eq.
  repeat (rewrite lookup_insert_ne by discriminate).
  rewrite !lookup_insert_eq.
  repeat (rewrite lookup_insert_ne by discriminate).
  rewrite !lookup_insert_eq.
  repeat (rewrite lookup_insert_ne by discriminate).
  rewrite !lookup_insert_eq.
  reflexivity.
Qed.

(** On chunks that all validate, the loop returns. *)
Lemma format_loop_total (to_float : pyval -> option Q) (chunks : list ChunkDict) :
  List.Forall (fun chunk => exists s, source_of to_float chunk s) chunks ->
  forall sources seen, exists result, format_loop to_float chunks sources seen = Ok result.
Proof.
  induction 1 as [|chunk rest [s Hs] _ IH]; intros sources seen; cbn [format_loop].
  - eauto.
  - destruct (existsb _ seen); [apply IH|].
    unfold source_of in Hs. rewrite Hs. cbn [bind]. apply IH.
Qed.

(** X22: the chat router's use of the retriever.  On a retriever whose
    chunks are the metadata [build_index] makes, [_format_sources] accepts
    whatever [search] returns: it raises no validation error, and every
    source carries the title, section and url of a stored chunk and, as
    relevance score, a similarity score in (0, 1]; when [search] returned a
    result, there is a source. *)
Theorem search_format_sources {A} (to_float : pyval -> option Q) (env : Env)
  (self : FAISSRetriever) (ix : IndexFlatL2) (query : pystr) (top_k : nat)
  (results : list ChunkDict) (chunk_objects : list DocumentChunk) (llm_sources : list A) :
  Retriever.chunks self = map chunk_dict chunk_objects ->
  search_index env self ix query top_k = Ok results ->
  exists sources,
    _format_sources to_float results llm_sources = Ok sources /\
    (results <> [] -> sources <> []) /\
    List.Forall (fun s => exists c q,
                   In c chunk_objects /\ s = source_of_chunk c q /\ (0 < q /\ q <= 1)%Q)
                sources.
Proof.
  intros Hc H. apply search_index_copies in H as [_ Hall]. rewrite Hc in Hall.
  assert (Hfound : List.Forall (fun r => exists c q,
                     In c chunk_objects /\
                     r = <["similarity_score" := PFloat q]> (chunk_dict c) /\
                     (0 < q /\ q <= 1)%Q) results).
  { eapply List.Forall_impl; [|exact Hall]. intros r (chunk & q & Hin & -> & Hq).
    apply in_map_iff in Hin as (c & <- & Hin). exists c, q. auto. }
  clear Hall.
  assert (Hthree : List.Forall (fun r => exists c q,
                     In c chunk_objects /\
                     r = <["similarity_score" := PFloat q]> (chunk_dict c) /\
                     (0 < q /\ q <= 1)%Q) (take 3 results)).
  { rewrite List.Forall_forall in *. intros r Hr. apply Hfound.
    apply list_elem_of_In. apply list_elem_of_In in Hr.
    exact (subseteq_take 3 results r Hr). }
  destruct (format_loop_total to_float (take 3 results)) with (sources := @nil SourceDocument)
    (seen := @nil pyval) as [sources Hs].
  { eapply List.Forall_impl; [|exact Hthree]. intros r (c & q & _ & -> & _).
    exists (source_of_chunk c q). apply source_of_found. }
  exists sources. split; [exact Hs|]. split.
  - intros Hne. destruct results as [|r rest]; [congruence|].
    cbn [take format_loop existsb] in Hs.
    destruct (SourceDocument_new _ _ _ _ _) as [source|e] eqn:Es; [|discriminate Hs].
    cbn [bind] in Hs. rewrite (SourceDocument_new_title _ _ _ _ _ _ Es) in Hs. intros ->.
    apply format_loop_inv in Hs as (new & Hs & _).
    + destruct new; discriminate Hs.
    + intros t. cbn [existsb]. rewrite orb_false_r, py_eq_str, bool_decide_eq_true.
      simpl. intuition congruence.
    + simpl. apply NoDup_singleton.
  - apply format_loop_inv in Hs as (new & -> & _ & _ & Hnew).
    + simpl. rewrite List.Forall_forall in *. intros s Hin.
      destruct (Hnew s Hin) as (chunk & Hchunk & Hsrc).
      destruct (Hthree chunk Hchunk) as (c & q & Hc' & -> & Hq).
      exists c, q. split; [exact Hc'|]. split; [|exact Hq].
      pose proof (source_of_found to_float c q) as Hsrc'. unfold source_of in *.
      congruence.
    + intros t. simpl. split; [discriminate|tauto].
    + constructor.
Qed.

Lemma search_format_sources_witness :
  Retriever.chunks two_chunk_retriever = map chunk_dict [chunk_a; chunk_b] /\
  match three_found with
  | Ok results =>
      exists sources,
        _format_sources int_to_float results (@nil pystr) = Ok sources /\
        (results <> [] -> sources <> []) /\
        List.Forall (fun s => exists c q,
                       In c [chunk_a; chunk_b] /\ s = source_of_chunk c q /\
                       (0 < q /\ q <= 1)%Q) sources
  | Raise _ => False
  end.
Proof.
  split; [reflexivity|].
  assert (Hlen : measure (@length _) three_found = 3%nat) by (vm_compute; reflexivity).
  destruct three_found as [results|e] eqn:E; [|discriminate Hlen].
  exact (search_format_sources int_to_float demo_env two_chunk_retriever two_vectors
           (py "student visa work") 3%nat results [chunk_a; chunk_b] [] eq_refl E).
Defined.
